(** * RAG-Orchestrator: ingest / query pipeline and its storage contract

    A shallow embedding of [vector_db.py], [data_loader.py], [main.py] and
    [evaluate_rag.py].  Python code that talks to an external service is
    written in a state-and-exception monad over a [World] that holds the
    vector database, the process environment and the faults the network can
    inject; the embedding and chat-completion providers, the PDF reader, the
    sentence splitter and [uuid.uuid5] are parameters. *)

From stdpp Require Import gmap strings list fin_maps sorting pretty.
From Stdlib Require Import ZArith.

Local Open Scope string_scope.
Local Open Scope Z_scope.

(** ** Python values and exceptions *)

(** The JSON-like values an event payload can carry. *)
Inductive PyVal :=
| PyStr (s : string)
| PyInt (z : Z)
| PyBool (b : bool)
| PyNone.

(** [str(v)] *)
Definition py_str (v : PyVal) : string :=
  match v with
  | PyStr s => s
  | PyInt z => pretty z
  | PyBool true => "True"
  | PyBool false => "False"
  | PyNone => "None"
  end.

(** Errors reported by the vector database. *)
Inductive BackendError :=
| AlreadyExists (name : string)
| NotFound (name : string)
| BadRequest
| TimedOut
| Unavailable.

(** The exceptions of the program, all of them instances of [Exception]. *)
Inductive Exn :=
| KeyError (key : string)
| IndexError
| TypeError
| ValueError (msg : string)
| QdrantError (e : BackendError)
| ServiceError (what : string).

Inductive Res (A : Type) :=
| Ok (a : A)
| Raised (e : Exn).
Arguments Ok {A} a.
Arguments Raised {A} e.

Definition is_ok {A} (r : Res A) : bool :=
  match r with Ok _ => true | Raised _ => false end.

(** ** [str.strip()] on strings whose characters are code points below 256 *)

(** [str.isspace] for one character: TAB..CR, FS..US, SPACE, NEL, NBSP. *)
Definition is_space (c : Ascii.ascii) : bool :=
  let n := Ascii.nat_of_ascii c in
  ((9 <=? n) && (n <=? 13) || (28 <=? n) && (n <=? 32)
   || (n =? 133) || (n =? 160))%nat.

Fixpoint lstrip (s : string) : string :=
  match s with
  | String c s' => if is_space c then lstrip s' else s
  | EmptyString => EmptyString
  end.

Fixpoint rstrip (s : string) : string :=
  match s with
  | String c s' =>
      match rstrip s' with
      | EmptyString => if is_space c then EmptyString else String c EmptyString
      | r => String c r
      end
  | EmptyString => EmptyString
  end.

Definition strip (s : string) : string := rstrip (lstrip s).

(** [sep.join(parts)] *)
Fixpoint join (sep : string) (parts : list string) : string :=
  match parts with
  | [] => ""
  | [p] => p
  | p :: rest => p +:+ sep +:+ join sep rest
  end.

(** Truthiness of a string: [if text:] *)
Definition truthy (s : string) : bool :=
  match s with EmptyString => false | _ => true end.

(** ** The vector database *)

Inductive Distance := COSINE | EUCLID | DOT | MANHATTAN.

(** A point payload is a dictionary; the ones this program writes have the
    keys ["source"] and ["text"]. *)
Abbreviation Payload := (gmap string string).

Section Model.

(** Embedding vectors are opaque to the program: it only passes them on. *)
Context {Vec : Type}.

(** A point as the client sends it: [PointStruct(id, vector, payload)]. *)
Record PointStruct := {
  ps_id : string;
  ps_vector : Vec;
  ps_payload : Payload;
}.

(** What the database keeps under one point identifier. *)
Record StoredPoint := {
  st_vector : Vec;
  st_payload : option Payload;
}.

(** A collection: its [VectorParams] (size and distance) and its points by
    identifier. *)
Record Collection := {
  vp_size : nat;
  vp_distance : Distance;
  cl_points : gmap string StoredPoint;
}.

(** One element of [query_points(...).points]. *)
Record ScoredPoint := {
  sp_id : string;
  sp_score : Z;
  sp_payload : option Payload;
}.

(** What can happen to one [create_collection] request, the one request
    whose failure the program handles: it is delivered; it is lost and the
    client raises [e]; it is applied but its response is lost and the client
    raises [e]; or another client creates the collection just before it
    arrives. *)
Inductive CreateFault :=
| Delivered
| LostRequest (e : BackendError)
| LostResponse (e : BackendError)
| Raced (other : Collection).

(** The state outside the program: the collections of the database, the
    process environment, and the faults still to come, one per
    [create_collection] request (none left: delivered).  There is one
    database server: the URL an adapter is built with is kept in the
    adapter and does not select among servers, so nothing is stated about
    adapters built with different URLs. *)
Record World := {
  collections : gmap string Collection;
  environ : gmap string string;
  create_faults : list CreateFault;
}.

Definition set_collections (w : World) (cs : gmap string Collection) : World :=
  {| collections := cs; environ := environ w; create_faults := create_faults w |}.

Definition set_create_faults (w : World) (fs : list CreateFault) : World :=
  {| collections := collections w; environ := environ w; create_faults := fs |}.

(** ** The monad of effectful Python code *)

Definition M (A : Type) : Type := World -> Res A * World.

Definition ret {A} (a : A) : M A := fun w => (Ok a, w).

Definition raise {A} (e : Exn) : M A := fun w => (Raised e, w).

Definition bind {A B} (m : M A) (k : A -> M B) : M B :=
  fun w => match m w with
           | (Ok a, w') => k a w'
           | (Raised e, w') => (Raised e, w')
           end.

(** [try: body / except Exception as e: handler e] *)
Definition try_except {A} (body : M A) (handler : Exn -> M A) : M A :=
  fun w => match body w with
           | (Ok a, w') => (Ok a, w')
           | (Raised e, w') => handler e w'
           end.

Definition lift {A} (r : Res A) : M A := fun w => (r, w).

End Model.

Arguments PointStruct : clear implicits.
Arguments StoredPoint : clear implicits.
Arguments Collection : clear implicits.
Arguments CreateFault : clear implicits.
Arguments World : clear implicits.
Arguments M : clear implicits.

Declare Scope py_scope.
Delimit Scope py_scope with py.
Notation "x <- m ; k" := (bind m (fun x => k))
  (at level 20, m at level 100, k at level 200, right associativity,
   format "'[v' x  <-  m ; '/' k ']'") : py_scope.
Notation "m ;; k" := (bind m (fun _ => k))
  (at level 100, k at level 200, right associativity,
   format "'[v' m ;; '/' k ']'") : py_scope.
Local Open Scope py_scope.

(** ** The external collaborators *)

Record Message := {
  role : string;
  content : string;
}.

(** The body of one chat-completion request; the temperature is kept as the
    decimal literal the source writes. *)
Record ChatRequest := {
  model : string;
  messages : list Message;
  temperature : string;
  max_tokens : Z;
}.

(** The services the program reaches over the network or through a library.
    - [pdf_load_data path]: [PDFReader().load_data(file=path)], giving the
      [text] attribute of every page document ([None] when it has none);
    - [split_text size overlap text]: the sentence splitter;
    - [embeddings_create input model]: one vector per response item;
    - [chat_completions_create body]: the message content of every choice. *)
Record Services {Vec : Type} := {
  pdf_load_data : string -> Res (list (option string));
  split_text : nat -> nat -> string -> list string;
  embeddings_create : list string -> string -> Res (list Vec);
  chat_completions_create : ChatRequest -> Res (list string);
}.
Arguments Services : clear implicits.

Section Code.

Context {Vec : Type}.

(** Similarity of a stored vector to the query under a metric: larger is
    closer.  The database computes it; the program never does. *)
Variable similarity : Distance -> Vec -> Vec -> Z.

(** [uuid.uuid5(namespace, name)] rendered by [str]. *)
Variable uuid5 : string -> string -> string.

(** [int(s)] on a string: [None] when Python raises [ValueError]. *)
Variable int_of_str : string -> option Z.

Variable svc : Services Vec.

(** *** The database client, [QdrantClient]

    The database is an external service.  Its requests are modelled by
    their contract: a collection is created only where none has the name,
    [upsert] inserts or replaces by identifier, and [query_points] returns
    the [limit] best-scoring points, best first. *)

Definition collection_exists (name : string) : M Vec bool :=
  fun w => (Ok (bool_decide (is_Some (collections w !! name))), w).

Definition empty_collection (size : nat) (dist : Distance) : Collection Vec :=
  {| vp_size := size; vp_distance := dist; cl_points := ∅ |}.

(** A [create_collection] request that reaches the server. *)
Definition deliver_create (name : string) (size : nat) (dist : Distance) : M Vec unit :=
  fun w =>
    match collections w !! name with
    | Some _ => (Raised (QdrantError (AlreadyExists name)), w)
    | None =>
        (Ok tt, set_collections w (<[name := empty_collection size dist]> (collections w)))
    end.

Definition create_collection (name : string) (size : nat) (dist : Distance) : M Vec unit :=
  fun w =>
    match create_faults w with
    | [] => deliver_create name size dist w
    | f :: fs =>
        let w := set_create_faults w fs in
        match f with
        | Delivered => deliver_create name size dist w
        | LostRequest e => (Raised (QdrantError e), w)
        | LostResponse e => (Raised (QdrantError e), (deliver_create name size dist w).2)
        | Raced other =>
            deliver_create name size dist
              (match collections w !! name with
               | Some _ => w
               | None => set_collections w (<[name := other]> (collections w))
               end)
        end
    end.

Definition get_collection (name : string) : M Vec (Collection Vec) :=
  fun w =>
    match collections w !! name with
    | Some c => (Ok c, w)
    | None => (Raised (QdrantError (NotFound name)), w)
    end.

(** What the server keeps of a point it is sent. *)
Definition as_stored (p : PointStruct Vec) : StoredPoint Vec :=
  {| st_vector := ps_vector p; st_payload := Some (ps_payload p) |}.

(** Writing one point: insert-or-replace by identifier. *)
Definition put_point (pts : gmap string (StoredPoint Vec)) (p : PointStruct Vec)
  : gmap string (StoredPoint Vec) :=
  <[ps_id p := as_stored p]> pts.

Definition put_points (c : Collection Vec) (points : list (PointStruct Vec)) : Collection Vec :=
  {| vp_size := vp_size c; vp_distance := vp_distance c;
     cl_points := foldl put_point (cl_points c) points |}.

(** [client.upsert(name, points=points)].  The database also validates a
    batch (it refuses an empty one, an identifier that is neither a UUID
    nor an unsigned integer, a vector of another dimension than the
    collection's) and then writes nothing; that validation is not modelled:
    what is stated of a write is stated of a call that returned. *)
Definition client_upsert (name : string) (points : list (PointStruct Vec)) : M Vec unit :=
  fun w =>
    match collections w !! name with
    | Some c => (Ok tt, set_collections w (<[name := put_points c points]> (collections w)))
    | None => (Raised (QdrantError (NotFound name)), w)
    end.

Definition scored (dist : Distance) (query : Vec) (with_payload : bool)
    (kv : string * StoredPoint Vec) : ScoredPoint :=
  {| sp_id := kv.1;
     sp_score := similarity dist query (st_vector kv.2);
     sp_payload := if with_payload then st_payload kv.2 else None |}.

(** [p] ranks no later than [q]. *)
Definition ranks_before (p q : ScoredPoint) : Prop := sp_score q <= sp_score p.

#[local] Instance ranks_before_dec p q : Decision (ranks_before p q) :=
  decide (sp_score q <= sp_score p).

Definition ranked (c : Collection Vec) (query : Vec) (with_payload : bool) : list ScoredPoint :=
  merge_sort ranks_before
    (scored (vp_distance c) query with_payload <$> map_to_list (cl_points c)).

(** [query_points(...).points]; the limit must be a positive integer.  The
    database also refuses a query vector of another dimension than the
    collection's; vectors being opaque here, that refusal is not modelled. *)
Definition query_points (name : string) (query : Vec) (limit : Z) (with_payload : bool)
  : M Vec (list ScoredPoint) :=
  fun w =>
    match collections w !! name with
    | Some c =>
        if limit <? 1 then (Raised (QdrantError BadRequest), w)
        else (Ok (take (Z.to_nat limit) (ranked c query with_payload)), w)
    | None => (Raised (QdrantError (NotFound name)), w)
    end.

(** *** vector_db.py *)

Record QdrantStorage := {
  qs_url : string;
  qs_collection : string;
  qs_dim : nat;
}.

Definition default_url : string := "http://localhost:6333".
Definition default_collection : string := "documents".
Definition default_dim : nat := 3072.

(** [QdrantStorage.__init__] *)
Definition QdrantStorage_init (url collection : string) (dim : nat) : M Vec QdrantStorage :=
  let self := {| qs_url := url; qs_collection := collection; qs_dim := dim |} in
  exists_ <- collection_exists collection;
  if negb exists_ then
    try_except
      (create_collection collection dim COSINE)
      (fun e => info <- get_collection collection; ret tt);;
    ret self
  else ret self.

(** [seq[i]], raising [IndexError] out of range. *)
Definition getitem {A} (l : list A) (i : nat) : Res A :=
  match l !! i with
  | Some a => Ok a
  | None => Raised IndexError
  end.

(** A list comprehension [[f(i) for i in range(n)]] whose body may raise. *)
Fixpoint comprehension {A} (f : nat -> Res A) (from n : nat) : Res (list A) :=
  match n with
  | O => Ok []
  | S n' =>
      match f from with
      | Ok a =>
          match comprehension f (S from) n' with
          | Ok rest => Ok (a :: rest)
          | Raised e => Raised e
          end
      | Raised e => Raised e
      end
  end.

Definition point_at (ids : list string) (vectors : list Vec) (payloads : list Payload)
    (i : nat) : Res (PointStruct Vec) :=
  match getitem ids i, getitem vectors i, getitem payloads i with
  | Ok id, Ok v, Ok p => Ok {| ps_id := id; ps_vector := v; ps_payload := p |}
  | Raised e, _, _ | _, Raised e, _ | _, _, Raised e => Raised e
  end.

(** [QdrantStorage.upsert] *)
Definition upsert (self : QdrantStorage) (ids : list string) (vectors : list Vec)
    (payloads : list Payload) : M Vec unit :=
  points <- lift (comprehension (point_at ids vectors payloads) 0 (length ids));
  client_upsert (qs_collection self) points.

(** The dictionary [search] returns. *)
Record SearchDict := {
  sd_contexts : list string;
  sd_sources : list string;
}.

(** The text and the source a result contributes: [payload.get(key, '')] on
    [getattr(result, 'payload', None) or {}]. *)
Definition payload_get (result : ScoredPoint) (key : string) : string :=
  default "" (default ∅ (sp_payload result) !! key).

(** One iteration of the loop over the results. *)
Definition collect (acc : list string * gset string) (result : ScoredPoint)
  : list string * gset string :=
  let text := payload_get result "text" in
  let source := payload_get result "source" in
  if truthy text then ((acc.1 ++ [text])%list, acc.2 ∪ {[source]}) else acc.

(** [QdrantStorage.search] *)
Definition search (self : QdrantStorage) (query_vector : Vec) (top_k : Z) : M Vec SearchDict :=
  results <- query_points (qs_collection self) query_vector top_k true;
  let acc := foldl collect ([], ∅) results in
  ret {| sd_contexts := acc.1; sd_sources := elements acc.2 |}.

(** The results that get past [if text:], in the order they came. *)
Definition surviving (results : list ScoredPoint) : list ScoredPoint :=
  filter (fun result => truthy (payload_get result "text")) results.

(** *** data_loader.py *)

Definition EMBEDDING_MODEL : string := "text-embedding-3-large".
Definition EMBEDDING_DIM : nat := 3072.

Definition splitter : string -> list string := split_text svc 1000 200.

Definition document_text (d : option string) : option string :=
  match d with
  | Some t => if truthy t then Some t else None
  | None => None
  end.

Definition load_and_chunk_pdf (file_path : string) : M Vec (list string) :=
  documents <- lift (pdf_load_data svc file_path);
  let texts := omap document_text documents in
  ret (foldl (fun chunked_texts text => (chunked_texts ++ splitter text)%list) [] texts).

Definition embed_texts (texts : list string) : M Vec (list Vec) :=
  lift (embeddings_create svc texts EMBEDDING_MODEL).

(** *** main.py *)

(** Modelled from the spec: [custom_types.py] is not among the sources; these
    are the models [main.py] constructs, with the fields it passes. *)
Record RAGChunkAndSrc := {
  chunk : list string;
  source_id : string;
}.

Record RAGUpsertResult := {
  ingested : nat;
}.

Record RAGSearchResult := {
  contexts : list string;
  sources : list string;
}.

(** [ctx.event.data[key]] *)
Definition data_getitem (data : gmap string PyVal) (key : string) : M Vec PyVal :=
  match data !! key with
  | Some v => ret v
  | None => raise (KeyError key)
  end.

(** [ctx.step.run(step_id, handler)]: the orchestrator runs the handler; its
    caching and retrying of steps are not part of this program. *)
Definition step_run {A} (step_id : string) (handler : M Vec A) : M Vec A := handler.

Definition _load (data : gmap string PyVal) : M Vec RAGChunkAndSrc :=
  v <- data_getitem data "pdf_file_path";
  let file_path := py_str v in
  let source_id := py_str (default (PyStr file_path) (data !! "source_id")) in
  chunks <- load_and_chunk_pdf file_path;
  ret {| chunk := chunks; source_id := source_id |}.

Definition NAMESPACE_URL : string := "6ba7b811-9dad-11d1-80b4-00c04fd430c8".

(** [str(uuid.uuid5(uuid.NAMESPACE_URL, name=f"{source_id}:{i}"))] *)
Definition point_id (source_id : string) (i : nat) : string :=
  uuid5 NAMESPACE_URL (source_id +:+ ":" +:+ pretty i).

(** [{"source": source_id, "text": text}] *)
Definition chunk_payload (source_id text : string) : Payload :=
  <["text" := text]> (<["source" := source_id]> ∅).

(** [{"source": source_id, "text": chunks[i]}] *)
Definition payload_at (source_id : string) (chunks : list string) (i : nat) : Res Payload :=
  match getitem chunks i with
  | Ok text => Ok (chunk_payload source_id text)
  | Raised e => Raised e
  end.

Definition _upsert (chunk_and_src : RAGChunkAndSrc) : M Vec RAGUpsertResult :=
  let chunks := chunk chunk_and_src in
  let source_id := source_id chunk_and_src in
  vectors <- embed_texts chunks;
  let ids := point_id source_id <$> seq 0 (length chunks) in
  payloads <- lift (comprehension (payload_at source_id chunks) 0 (length chunks));
  storage <- QdrantStorage_init default_url default_collection default_dim;
  upsert storage ids vectors payloads;;
  ret {| ingested := length ids |}.

Definition rag_ingest_pdf (data : gmap string PyVal) : M Vec RAGUpsertResult :=
  chunk_and_src <- step_run "load-and-chunk-pdf" (_load data);
  upsert_result <- step_run "embed-and-upsert" (_upsert chunk_and_src);
  ret upsert_result.

Definition _search (question : string) (top_k : Z) : M Vec RAGSearchResult :=
  vectors <- embed_texts [question];
  query_vector <- lift (getitem vectors 0);
  storage <- QdrantStorage_init default_url default_collection default_dim;
  search_results <- search storage query_vector top_k;
  ret {| contexts := sd_contexts search_results; sources := sd_sources search_results |}.

(** [int(v)] *)
Definition py_int (v : PyVal) : Res Z :=
  match v with
  | PyInt z => Ok z
  | PyBool b => Ok (if b then 1 else 0)
  | PyStr s =>
      match int_of_str s with
      | Some z => Ok z
      | None => Raised (ValueError "invalid literal for int()")
      end
  | PyNone => Raised TypeError
  end.

Definition nl : string := String (Ascii.ascii_of_nat 10) EmptyString.

(** ["\n\n".join(f"- {ctx}" for ctx in contexts)] *)
Definition context_block_of (contexts : list string) : string :=
  join (nl +:+ nl) ((fun ctx => "- " +:+ ctx) <$> contexts).

Definition user_content_of (context_block question : string) : string :=
  "Use the following context to answer the question:" +:+ nl +:+ nl
  +:+ "Context:" +:+ nl +:+ context_block +:+ nl +:+ nl
  +:+ "Question: " +:+ question +:+ nl
  +:+ "Answer the question based on the context provided.".

Definition system_prompt : string :=
  "You are a helpful assistant that provides answers based on provided context.".

Definition chat_body (user_content : string) : ChatRequest :=
  {| model := "gpt-4o-mini";
     messages := [ {| role := "system"; content := system_prompt |};
                   {| role := "user"; content := user_content |} ];
     temperature := "0.2";
     max_tokens := 1024 |}.

(** [os.getenv(name)] *)
Definition getenv (name : string) : M Vec (option string) :=
  fun w => (Ok (environ w !! name), w).

(** [ctx.step.ai.infer(step_id, adapter, body)]: the choices of the
    completion the provider returns for the body. *)
Definition step_ai_infer (step_id : string) (body : ChatRequest) : M Vec (list string) :=
  lift (chat_completions_create svc body).

Record QueryOutput := {
  answer : string;
  out_sources : list string;
  num_contexts : nat;
}.

(** The event's question is taken to be text, as the embedding request
    is given it.  [main.py] itself does not look at its type: an event whose
    question is not a string is outside this model, which marks it with
    [TypeError] where the source goes on. *)
Definition question_of (v : PyVal) : M Vec string :=
  match v with
  | PyStr s => ret s
  | _ => raise TypeError
  end.

Definition rag_query_pdf_ai (data : gmap string PyVal) : M Vec QueryOutput :=
  v <- data_getitem data "question";
  question <- question_of v;
  top_k <- lift (py_int (default (PyInt 5) (data !! "top_k")));
  search_result <- step_run "vector-search" (_search question top_k);
  let context_block := context_block_of (contexts search_result) in
  let user_content := user_content_of context_block question in
  openai_api_key <- getenv "OPENAI_API_KEY";
  (if truthy (default "" openai_api_key) then ret tt
   else raise (ValueError "OPENAI_API_KEY environment variable is not set"));;
  res <- step_ai_infer "generate-answer" (chat_body user_content);
  choice <- lift (getitem res 0);
  let answer_text := strip choice in
  ret {| answer := answer_text;
         out_sources := sources search_result;
         num_contexts := length (contexts search_result) |}.

(** The points indexed in the collection the workflows use. *)
Definition indexed (w : World Vec) : gmap string (StoredPoint Vec) :=
  match collections w !! default_collection with
  | Some c => cl_points c
  | None => ∅
  end.

(** *** evaluate_rag.py *)

Record EvalResult := {
  r_question : string;
  r_answer : string;
  r_contexts : list string;
  r_sources : list string;
}.

Definition run_rag_query (question : string) (top_k : Z) : M Vec EvalResult :=
  vectors <- embed_texts [question];
  query_vector <- lift (getitem vectors 0);
  storage <- QdrantStorage_init default_url default_collection default_dim;
  search_results <- search storage query_vector top_k;
  let contexts := sd_contexts search_results in
  let context_block := context_block_of contexts in
  let user_content := user_content_of context_block question in
  response <- lift (chat_completions_create svc (chat_body user_content));
  answer <- lift (getitem response 0);
  ret {| r_question := question;
         r_answer := answer;
         r_contexts := contexts;
         r_sources := sd_sources search_results |}.

Definition test_questions : list string :=
  [ "What is the main topic of the document?";
    "What methodology is described?";
    "What are the key findings?";
    "What problem does this address?";
    "What are the main components?" ].

Definition ground_truths : list string :=
  [ "The document discusses main concepts and methodology";
    "The document describes research methodology";
    "The document presents findings and conclusions";
    "The document addresses a specific problem";
    "The document contains key sections and components" ].

(** The loop that fills [results]: a question whose query raises is
    reported and left out. *)
Fixpoint query_loop (questions : list string) (results : list EvalResult)
  : M Vec (list EvalResult) :=
  match questions with
  | [] => ret results
  | question :: rest =>
      results <- try_except
                   (result <- run_rag_query question 5;
                    ret (results ++ [result])%list)
                   (fun e => ret results);
      query_loop rest results
  end.

(** How the query of each question ends, the queries running one after the
    other as in the loop. *)
Fixpoint query_outcomes (questions : list string) (w : World Vec) : list (Res EvalResult) :=
  match questions with
  | [] => []
  | question :: rest =>
      let out := run_rag_query question 5 w in
      out.1 :: query_outcomes rest out.2
  end.

(** The values of the outcomes that are not exceptions. *)
Definition ok_results {A} (outs : list (Res A)) : list A :=
  omap (fun out => match out with Ok a => Some a | Raised _ => None end) outs.

(** The [data] dictionary handed to [Dataset.from_dict]. *)
Record EvalData := {
  d_question : list string;
  d_answer : list string;
  d_contexts : list (list string);
  d_ground_truth : list string;
}.

Definition build_data (results : list EvalResult) : EvalData :=
  {| d_question := r_question <$> results;
     d_answer := r_answer <$> results;
     d_contexts := r_contexts <$> results;
     d_ground_truth := take (length results) ground_truths |}.

(** One row of the dataset that is scored. *)
Record Row := {
  row_question : string;
  row_answer : string;
  row_contexts : list string;
  row_ground_truth : string;
}.

(** [Dataset.from_dict]: the columns must have one length; row [k] takes
    entry [k] of every column. *)
Definition Dataset_from_dict (data : EvalData) : Res (list Row) :=
  let n := length (d_question data) in
  if bool_decide (length (d_answer data) = n /\ length (d_contexts data) = n
                  /\ length (d_ground_truth data) = n)
  then comprehension
         (fun k =>
            match getitem (d_question data) k, getitem (d_answer data) k,
                  getitem (d_contexts data) k, getitem (d_ground_truth data) k with
            | Ok q, Ok a, Ok c, Ok g =>
                Ok {| row_question := q; row_answer := a;
                      row_contexts := c; row_ground_truth := g |}
            | _, _, _, _ => Raised IndexError
            end) 0 n
  else Raised (ValueError "columns of unequal length").

(** How the script ends: by [exit(code)], or at the dataset it scores. *)
Inductive ScriptEnd :=
| Exited (code : Z)
| Scored (rows : list Row).

(** The script up to the dataset it passes to the scorer. *)
Definition evaluation_dataset : M Vec ScriptEnd :=
  results <- query_loop test_questions [];
  if bool_decide (results = []) then ret (Exited 1)
  else
    dataset <- lift (Dataset_from_dict (build_data results));
    ret (Scored dataset).

End Code.

Arguments QdrantStorage_init {Vec} url collection dim w.
Arguments upsert {Vec} self ids vectors payloads w.
Arguments search {Vec} similarity self query_vector top_k w.
Arguments query_points {Vec} similarity name query limit with_payload w.
Arguments ranked {Vec} similarity c query with_payload.

(** ** A small concrete instance

    Integer vectors compared by dot product, a transparent stand-in for
    [uuid5], a reader that knows one three-chunk document, and providers
    that fail on one marked input each. *)
Module Demo.

Definition dot (u v : list Z) : Z := foldr Z.add 0 (zip_with Z.mul u v).

Definition similarity (d : Distance) (query v : list Z) : Z := dot query v.

Definition uuid5 (namespace name : string) : string := "uuid5/" +:+ name.

Definition int_of_str (s : string) : option Z :=
  if String.eqb s "2" then Some 2 else None.

Definition svc : Services (list Z) :=
  {| pdf_load_data := fun path =>
       if String.eqb path "doc1.pdf" then Ok [Some "one two three"; None; Some ""]
       else Raised (ServiceError "DocumentLoadError");
     split_text := fun _ _ text => [text +:+ " #0"; text +:+ " #1"; text +:+ " #2"];
     embeddings_create := fun texts _ =>
       if bool_decide ("What are the key findings?" ∈ texts)
       then Raised (ServiceError "EmbeddingServiceError")
       else Ok ((fun t => [Z.of_nat (String.length t); 1]) <$> texts);
     chat_completions_create := fun body =>
       Ok ["  forty-two" +:+ nl; "unused"] |}.

Definition env : gmap string string := {["OPENAI_API_KEY" := "sk-test"]}.

(** No collection yet. *)
Definition fresh : World (list Z) :=
  {| collections := ∅; environ := env; create_faults := [] |}.

Definition with_collection (c : Collection (list Z)) (faults : list (CreateFault (list Z)))
  : World (list Z) :=
  {| collections := {[default_collection := c]}; environ := env; create_faults := faults |}.

(** An existing collection of another dimension and metric. *)
Definition foreign : Collection (list Z) :=
  {| vp_size := 4; vp_distance := DOT; cl_points := ∅ |}.

Definition stored (v : list Z) (p : option Payload) : StoredPoint (list Z) :=
  {| st_vector := v; st_payload := p |}.

(** Three points of one source; the best match has an empty text. *)
Definition library : Collection (list Z) :=
  {| vp_size := 2; vp_distance := COSINE;
     cl_points :=
       {[ "p0" := stored [9; 0] (Some {["source" := "doc1"; "text" := ""]});
          "p1" := stored [5; 0] (Some {["source" := "doc1"; "text" := "five"]});
          "p2" := stored [1; 0] (Some {["source" := "doc1"; "text" := "one"]}) ]} |}.

Definition adapter : QdrantStorage :=
  {| qs_url := default_url; qs_collection := default_collection; qs_dim := default_dim |}.

Definition doc1 : RAGChunkAndSrc :=
  {| chunk := ["alpha"; "beta"; "gamma"]; source_id := "doc1" |}.

(** The world once [doc1] has been ingested. *)
Definition after_doc1 : World (list Z) := (_upsert uuid5 svc doc1 fresh).2.

(** The collection of the workflows over [library]. *)
Definition stocked : World (list Z) := with_collection library [].

(** What the model is made to say. *)
Definition completion : string := "  forty-two" +:+ nl.

(** The result the harness has for its fourth question over [stocked]. *)
Definition fourth_result : EvalResult :=
  {| r_question := "What problem does this address?";
     r_answer := completion;
     r_contexts := ["five"; "one"];
     r_sources := ["doc1"] |}.

End Demo.

(** ** The rows of the scored dataset *)

(** The row that puts a result beside a reference answer. *)
Definition row_of (r : EvalResult) (g : string) : Row :=
  {| row_question := r_question r;
     row_answer := r_answer r;
     row_contexts := r_contexts r;
     row_ground_truth := g |}.

(** ** pages/query.py and pages/upload.py: waiting for a run

    Both pages poll the orchestrator's API with the same three functions;
    the two copies of [wait_for_run_output] differ in the noun of the
    timeout message (["answer"] in [query.py], ["run"] in [upload.py]) and
    in what they draw on the page, which is not modelled. *)

(** A run as the API reports it: the ["status"] and ["output"] entries of
    its dictionary, [None] where the entry is missing (for the output also
    where it is null; a null status is not modelled). *)
Record Run := {
  run_status : option string;
  run_output : option (gmap string PyVal);
}.

(** What one turn of the polling loop observes: the seconds elapsed on the
    clock, and what a GET of a URL gives at that moment: an exception, or
    the ["data"] entry of the JSON body ([None] when it has none). *)
Record Tick := {
  elapsed : Qcanon.Qc;
  http_get : string -> Res (option (list Run));
}.

(** How the wait ends. *)
Inductive WaitEnd :=
| Output (output : gmap string PyVal)
| RuntimeError (msg : string)
| TimeoutError (msg : string).

Definition _inngest_api_base (environ : gmap string string) : string :=
  default "http://127.0.0.1:8288/v1" (environ !! "INNGEST_API_BASE").

Definition fetch_runs (environ : gmap string string)
    (get : string -> Res (option (list Run))) (event_id : string) : list Run :=
  match get (_inngest_api_base environ +:+ "/events/" +:+ event_id +:+ "/runs") with
  | Ok (Some runs) => runs
  | Ok None => []
  | Raised _ => []
  end.

Definition completed_statuses : list string :=
  ["Completed"; "Succeeded"; "Success"; "Finished"].

Definition failed_statuses : list string := ["Failed"; "Cancelled"].

(** [elapsed > timeout_s] *)
Definition overdue (timeout_s seconds : Qcanon.Qc) : bool :=
  bool_decide (Qcanon.Qclt timeout_s seconds).

(** The [while True] loop of [wait_for_run_output], one [Tick] per turn;
    [None] when the observations end while the loop is still polling.  The
    progress bar, and with it the division [elapsed / timeout_s], is left
    out: the loop is modelled for the positive timeouts the pages pass. *)
Fixpoint poll (what : string) (environ : gmap string string)
    (event_id : string) (timeout_s : Qcanon.Qc) (last_status : string)
    (ticks : list Tick) : option WaitEnd :=
  match ticks with
  | [] => None
  | tick :: later =>
      let timed_out last :=
        if overdue timeout_s (elapsed tick)
        then Some (TimeoutError ("Timed out waiting for " +:+ what
                                 +:+ " (last status: " +:+ last +:+ ")"))
        else poll what environ event_id timeout_s last later in
      match fetch_runs environ (http_get tick) event_id with
      | run :: _ =>
          let status := default "Running" (run_status run) in
          if bool_decide (status ∈ completed_statuses)
          then Some (Output (default ∅ (run_output run)))
          else if bool_decide (status ∈ failed_statuses)
          then Some (RuntimeError ("Function run " +:+ status))
          else timed_out status
      | [] => timed_out last_status
      end
  end.

Definition wait_for_run_output (what : string) (environ : gmap string string)
    (event_id : string) (timeout_s : Qcanon.Qc) (ticks : list Tick) : option WaitEnd :=
  poll what environ event_id timeout_s "Pending" ticks.

(** A turn after which the loop goes on: the deadline has not passed and
    the first run, if there is one, has no final status. *)
Definition undecided (environ : gmap string string) (event_id : string)
    (timeout_s : Qcanon.Qc) (tick : Tick) : bool :=
  negb (overdue timeout_s (elapsed tick))
  && match fetch_runs environ (http_get tick) event_id with
     | run :: _ =>
         let status := default "Running" (run_status run) in
         negb (bool_decide (status ∈ completed_statuses))
         && negb (bool_decide (status ∈ failed_statuses))
     | [] => true
     end.

(** A small instance for the pages: an API that is down, then reports a
    run in progress, then the finished run. *)
Module DemoPages.

Definition down : string -> Res (option (list Run)) :=
  fun url => Raised (ServiceError "ConnectionError").

Definition reports (status : string) (output : option (gmap string PyVal))
  : string -> Res (option (list Run)) :=
  fun url =>
    if String.eqb url "http://127.0.0.1:8288/v1/events/ev1/runs"
    then Ok (Some [ {| run_status := Some status; run_output := output |} ])
    else Raised (ServiceError "404").

Definition at_second (s : Z) (get : string -> Res (option (list Run))) : Tick :=
  {| elapsed := Qc_of_Z s; http_get := get |}.

Definition answer_output : gmap string PyVal := {["answer" := PyStr "forty-two"]}.

End DemoPages.

(** More of the concrete instance: providers that misbehave, a world
    without the API key, and a shorter second version of [doc1]. *)
Module DemoMore.

Import Demo.

(** An embedding provider that returns one vector too few. *)
Definition stingy : Services (list Z) :=
  {| pdf_load_data := pdf_load_data svc;
     split_text := split_text svc;
     embeddings_create := fun texts _ => Ok ((fun t => [1; 1]) <$> drop 1 texts);
     chat_completions_create := chat_completions_create svc |}.

(** An embedding provider that is down. *)
Definition broken : Services (list Z) :=
  {| pdf_load_data := pdf_load_data svc;
     split_text := split_text svc;
     embeddings_create := fun texts _ => Raised (ServiceError "EmbeddingServiceError");
     chat_completions_create := chat_completions_create svc |}.

(** [stocked] without [OPENAI_API_KEY]. *)
Definition keyless : World (list Z) :=
  {| collections := {[default_collection := library]}; environ := ∅; create_faults := [] |}.

(** [doc1] after an edit that left it one chunk. *)
Definition doc1_short : RAGChunkAndSrc :=
  {| chunk := ["alpha only"]; source_id := "doc1" |}.

(** Point identifiers in the form the database takes. *)
Definition id_five : string := "11111111-1111-4111-8111-111111111111".
Definition id_one : string := "22222222-2222-4222-8222-222222222222".
Definition id_new : string := "33333333-3333-4333-8333-333333333333".

(** A collection of two-component vectors compared by dot product, with
    two points. *)
Definition shelf : Collection (list Z) :=
  {| vp_size := 2; vp_distance := DOT;
     cl_points :=
       {[ id_five := stored [5; 0] (Some {["source" := "doc1"; "text" := "five"]});
          id_one := stored [1; 0] (Some {["source" := "doc1"; "text" := "one"]}) ]} |}.

Definition shelved : World (list Z) := with_collection shelf [].


(** The world after two points are sent to [shelf], one of them under an
    identifier [shelf] already has. *)
Definition reshelved : World (list Z) :=
  (upsert adapter [id_five; id_new] [[7; 7]; [8; 8]]
     [{["text" := "seven"]}; {["source" := "docX"; "text" := "eight"]}] shelved).2.

(** The result the harness has for its second question over [stocked]. *)
Definition second_result : EvalResult :=
  {| r_question := "What methodology is described?";
     r_answer := completion;
     r_contexts := ["five"; "one"];
     r_sources := ["doc1"] |}.

End DemoMore.

(** * Properties *)

Local Close Scope Z_scope.

(** ** The monad *)

Section MonadFacts.

Context {Vec : Type}.
Implicit Types w : World Vec.

Lemma bind_ok_inv {A B} (m : M Vec A) (k : A -> M Vec B) w b w2 :
  bind m k w = (Ok b, w2) ->
  exists a w1, m w = (Ok a, w1) /\ k a w1 = (Ok b, w2).
Proof.
  unfold bind. destruct (m w) as [[a|e] w1]; [eauto | discriminate].
Qed.


Lemma bind_raised {A B} (m : M Vec A) (k : A -> M Vec B) w e w1 :
  m w = (Raised e, w1) -> bind m k w = (Raised e, w1).
Proof. unfold bind. now intros ->. Qed.

Lemma lift_ok_inv {A} (r : Res A) w a w1 :
  lift (Vec:=Vec) r w = (Ok a, w1) -> r = Ok a /\ w1 = w.
Proof. unfold lift. intros [= -> ->]. auto. Qed.

End MonadFacts.

(** ** List comprehensions *)

Section Comprehension.

Context {A : Type}.
Implicit Types (f : nat -> Res A) (l : list A).

Lemma comprehension_ok_inv f from n l :
  comprehension f from n = Ok l ->
  length l = n /\ forall i a, l !! i = Some a -> f (from + i) = Ok a.
Proof.
  revert from l. induction n as [|n IH]; intros from l; simpl.
  - intros [= <-]. split; [done|]. intros i a. by rewrite lookup_nil.
  - destruct (f from) as [a0|e] eqn:Hf; [|discriminate].
    destruct (comprehension f (S from) n) as [rest|e] eqn:Hrest; [|discriminate].
    intros [= <-]. destruct (IH _ _ Hrest) as [Hlen Hat]. split.
    + simpl. by rewrite Hlen.
    + intros [|i] a; simpl.
      * intros [= <-]. by rewrite Nat.add_0_r.
      * intros Hi. rewrite <- Nat.add_succ_comm. by apply Hat.
Qed.

Lemma comprehension_total f from n :
  (forall i, i < n -> exists a, f (from + i) = Ok a) ->
  exists l, comprehension f from n = Ok l.
Proof.
  revert from. induction n as [|n IH]; intros from Hall; simpl; [eauto|].
  destruct (Hall 0) as [a0 Ha0]; [lia|]. rewrite Nat.add_0_r in Ha0. rewrite Ha0.
  destruct (IH (S from)) as [rest ->]; [|eauto].
  intros i Hi. destruct (Hall (S i)) as [a Ha]; [lia|].
  exists a. by rewrite Nat.add_succ_comm.
Qed.

End Comprehension.

(** ** Writing points *)

Section PutPoints.

Context {Vec : Type}.
Implicit Types (pts : gmap string (StoredPoint Vec)) (points : list (PointStruct Vec)).

Lemma put_points_lookup_other points pts id :
  (forall p, p ∈ points -> ps_id p <> id) ->
  foldl put_point pts points !! id = pts !! id.
Proof.
  revert pts. induction points as [|p points IH]; intros pts Hne; simpl; [done|].
  rewrite IH.
  - unfold put_point. apply lookup_insert_ne. apply Hne. by left.
  - intros q Hq. apply Hne. by right.
Qed.

Lemma put_points_lookup_last points pts i p :
  points !! i = Some p ->
  (forall j q, i < j -> points !! j = Some q -> ps_id q <> ps_id p) ->
  foldl put_point pts points !! ps_id p = Some (as_stored p).
Proof.
  revert pts i. induction points as [|p0 points IH]; intros pts i; [by rewrite lookup_nil|].
  destruct i as [|i]; simpl.
  - intros [= ->] Hlater. rewrite put_points_lookup_other.
    + unfold put_point. apply lookup_insert_eq.
    + intros q [j Hj]%list_elem_of_lookup. apply (Hlater (S j)); [lia|done].
  - intros Hi Hlater. apply (IH _ i); [done|].
    intros j q Hij Hj. apply (Hlater (S j)); [lia|done].
Qed.

Lemma put_points_dom points pts :
  dom (foldl put_point pts points) = dom pts ∪ list_to_set (ps_id <$> points).
Proof.
  revert pts. induction points as [|p points IH]; intros pts; simpl.
  - set_solver.
  - rewrite IH. unfold put_point. rewrite dom_insert_L. set_solver.
Qed.

End PutPoints.

(** ** vector_db.py: [upsert] *)

Section UpsertFacts.

Context {Vec : Type}.
Implicit Types (w : World Vec) (c : Collection Vec) (self : QdrantStorage).

Lemma point_at_ok_inv ids (vectors : list Vec) payloads i p :
  point_at ids vectors payloads i = Ok p ->
  ids !! i = Some (ps_id p) /\ vectors !! i = Some (ps_vector p)
  /\ payloads !! i = Some (ps_payload p).
Proof.
  unfold point_at, getitem.
  destruct (ids !! i), (vectors !! i), (payloads !! i); intros [= <-]; auto.
Qed.

Lemma point_at_total ids (vectors : list Vec) payloads i :
  i < length ids -> length ids <= length vectors -> length ids <= length payloads ->
  exists p, point_at ids vectors payloads i = Ok p.
Proof.
  intros Hi Hv Hp. unfold point_at, getitem.
  destruct (lookup_lt_is_Some_2 ids i) as [id ->]; [lia|].
  destruct (lookup_lt_is_Some_2 vectors i) as [v ->]; [lia|].
  destruct (lookup_lt_is_Some_2 payloads i) as [p ->]; [lia|]. eauto.
Qed.

(** The points [upsert] builds carry the identifiers it was given, in order. *)
Lemma built_points_ids ids (vectors : list Vec) payloads points :
  comprehension (point_at ids vectors payloads) 0 (length ids) = Ok points ->
  ps_id <$> points = ids.
Proof.
  intros [Hlen Hat]%comprehension_ok_inv. apply list_eq. intros i.
  rewrite list_lookup_fmap. destruct (points !! i) as [p|] eqn:Hp; simpl.
  - apply Hat in Hp. simpl in Hp. apply point_at_ok_inv in Hp as (-> & _ & _). done.
  - symmetry. apply lookup_ge_None. apply lookup_ge_None in Hp. lia.
Qed.

(** What a call of [upsert] does to the world: it fails before writing, or it
    writes one batch into the collection. *)
Lemma upsert_cases self ids (vectors : list Vec) payloads w :
  (exists e, upsert self ids vectors payloads w = (Raised e, w))
  \/ (exists c points,
        collections w !! qs_collection self = Some c
        /\ comprehension (point_at ids vectors payloads) 0 (length ids) = Ok points
        /\ upsert self ids vectors payloads w
           = (Ok tt, set_collections w
                       (<[qs_collection self := put_points c points]> (collections w)))).
Proof.
  unfold upsert, bind, lift, client_upsert.
  destruct (comprehension _ 0 (length ids)) as [points|e]; [|eauto].
  destruct (collections w !! qs_collection self) as [c|] eqn:Hc; [|eauto].
  right. exists c, points. auto.
Qed.

(** C6: a call [upsert(ids, vectors, payloads)] with three sequences of one
    length [n], when the database accepts the batch and the call returns,
    has written exactly [n] points, the point at position [i] being
    [(ids[i], vectors[i], payloads[i])]; afterwards the collection holds,
    under each written identifier, the vector and the payload of the last
    point written with it and nothing of what was stored there before, and
    points with other identifiers are untouched. *)
Theorem upsert_writes_aligned_points self ids (vectors : list Vec) payloads w w1 :
  length vectors = length ids ->
  length payloads = length ids ->
  upsert self ids vectors payloads w = (Ok tt, w1) ->
  exists c points,
    collections w !! qs_collection self = Some c
    /\ w1 = set_collections w
              (<[qs_collection self := put_points c points]> (collections w))
    /\ length points = length ids
    /\ (forall i p, points !! i = Some p ->
          ids !! i = Some (ps_id p) /\ vectors !! i = Some (ps_vector p)
          /\ payloads !! i = Some (ps_payload p))
    /\ (forall i p, points !! i = Some p ->
          (forall j, i < j -> ids !! j <> Some (ps_id p)) ->
          cl_points (put_points c points) !! ps_id p
          = Some {| st_vector := ps_vector p; st_payload := Some (ps_payload p) |})
    /\ (forall id, id ∉ ids ->
          cl_points (put_points c points) !! id = cl_points c !! id).
Proof.
  intros Hv Hp Hrun.
  destruct (upsert_cases self ids vectors payloads w)
    as [[e He]|(c & points & Hc & Hpoints & Hok)]; [congruence|].
  rewrite Hok in Hrun. injection Hrun as <-.
  pose proof (built_points_ids _ _ _ _ Hpoints) as Hids.
  destruct (comprehension_ok_inv _ _ _ _ Hpoints) as [Hlen Hat].
  exists c, points. split; [done|]. split; [done|]. split; [done|]. split; [|split].
  - intros i p Hi. by apply (point_at_ok_inv ids vectors payloads i), Hat.
  - intros i p Hi Hlast. simpl. apply (put_points_lookup_last _ _ i); [done|].
    intros j q Hij Hj Heq. apply (Hlast j Hij).
    rewrite <- Hids, list_lookup_fmap, Hj. simpl. by rewrite Heq.
  - intros id Hid. simpl. apply put_points_lookup_other.
    intros p Hp' <-. apply Hid. rewrite <- Hids. by apply list_elem_of_fmap_2.
Qed.

End UpsertFacts.

(** ** vector_db.py: the constructor *)

Section InitFacts.

Context {Vec : Type}.
Implicit Types (w : World Vec) (c : Collection Vec).

Lemma init_existing url name dim w c :
  collections w !! name = Some c ->
  QdrantStorage_init url name dim w
  = (Ok {| qs_url := url; qs_collection := name; qs_dim := dim |}, w).
Proof.
  intros Hc. unfold QdrantStorage_init, bind, collection_exists.
  rewrite Hc. rewrite bool_decide_eq_true_2; [done|eauto].
Qed.

Lemma init_absent url name dim w :
  collections w !! name = None ->
  QdrantStorage_init url name dim w
  = match create_collection name dim COSINE w with
    | (Ok _, w1) => (Ok {| qs_url := url; qs_collection := name; qs_dim := dim |}, w1)
    | (Raised _, w1) =>
        match collections w1 !! name with
        | Some _ => (Ok {| qs_url := url; qs_collection := name; qs_dim := dim |}, w1)
        | None => (Raised (QdrantError (NotFound name)), w1)
        end
    end.
Proof.
  intros Hc. unfold QdrantStorage_init, bind, collection_exists, try_except.
  rewrite Hc. rewrite bool_decide_eq_false_2; [|by intros [? [=]]]. simpl.
  destruct (create_collection name dim COSINE w) as [[[]|e] w1]; [done|].
  unfold get_collection, ret. by destruct (collections w1 !! name).
Qed.

Lemma deliver_create_ok_inv name size dist w w1 :
  deliver_create (Vec:=Vec) name size dist w = (Ok tt, w1) ->
  collections w1 !! name = Some (empty_collection size dist)
  /\ environ w1 = environ w.
Proof.
  unfold deliver_create. destruct (collections w !! name); [discriminate|].
  intros [= <-]. simpl. split; [apply lookup_insert_eq|done].
Qed.

Lemma create_collection_ok_inv name size dist w w1 :
  create_collection (Vec:=Vec) name size dist w = (Ok tt, w1) ->
  collections w1 !! name = Some (empty_collection size dist)
  /\ environ w1 = environ w.
Proof.
  unfold create_collection. destruct (create_faults w) as [|[|e|e|other] fs].
  - apply deliver_create_ok_inv.
  - intros H%deliver_create_ok_inv. done.
  - discriminate.
  - discriminate.
  - unfold deliver_create. simpl.
    destruct (collections w !! name) eqn:Hc; simpl.
    + rewrite Hc. discriminate.
    + rewrite lookup_insert_eq. discriminate.
Qed.

Lemma create_collection_environ name size dist w :
  environ (create_collection (Vec:=Vec) name size dist w).2 = environ w.
Proof.
  unfold create_collection, deliver_create.
  destruct (create_faults w) as [|[|e|e|other] fs]; simpl;
    repeat (match goal with |- context [match ?x with _ => _ end] => destruct x eqn:? end;
            simpl in *); done.
Qed.

(** A constructor that returns has a collection to work on. *)
Lemma init_ok_inv url name dim w self w1 :
  QdrantStorage_init (Vec:=Vec) url name dim w = (Ok self, w1) ->
  self = {| qs_url := url; qs_collection := name; qs_dim := dim |}
  /\ is_Some (collections w1 !! name)
  /\ environ w1 = environ w.
Proof.
  destruct (collections w !! name) as [c|] eqn:Hc.
  - rewrite (init_existing _ _ _ _ c Hc). intros [= <- <-]. eauto.
  - rewrite (init_absent _ _ _ _ Hc).
    pose proof (create_collection_environ name dim COSINE w) as Henv.
    destruct (create_collection name dim COSINE w) as [[[]|e] w0] eqn:Hcreate; simpl in Henv.
    + intros [= <- <-]. apply create_collection_ok_inv in Hcreate as [-> _]. eauto.
    + destruct (collections w0 !! name) eqn:Hc0; [|discriminate].
      intros [= <- <-]. rewrite Hc0. eauto.
Qed.

(** A constructor that raises has changed no stored point. *)
Lemma init_existing_unchanged url name dim w r w1 :
  is_Some (collections w !! name) ->
  QdrantStorage_init (Vec:=Vec) url name dim w = (r, w1) -> w1 = w.
Proof. intros [c Hc]. rewrite (init_existing _ _ _ _ c Hc). by intros [= _ <-]. Qed.

(** C2 (amended): the constructor checks nothing about a collection that
    already exists and leaves it, with whatever dimension and metric it has,
    exactly as it was; when the collection is absent it asks for one of the
    configured dimension with the cosine metric; and when that request
    fails, for whatever reason, the failure is an error of the constructor
    exactly when the collection still cannot be fetched afterwards. *)
Theorem init_keeps_existing_creates_absent url name dim w :
  let self := {| qs_url := url; qs_collection := name; qs_dim := dim |} in
  (forall c, collections w !! name = Some c ->
     QdrantStorage_init url name dim w = (Ok self, w))
  /\ (forall w1, collections w !! name = None ->
        create_collection name dim COSINE w = (Ok tt, w1) ->
        QdrantStorage_init url name dim w = (Ok self, w1)
        /\ collections w1 !! name = Some (empty_collection dim COSINE))
  /\ (forall e w1, collections w !! name = None ->
        create_collection name dim COSINE w = (Raised e, w1) ->
        QdrantStorage_init url name dim w
        = match collections w1 !! name with
          | Some _ => (Ok self, w1)
          | None => (Raised (QdrantError (NotFound name)), w1)
          end).
Proof.
  intros self. split; [|split].
  - intros c Hc. by apply (init_existing _ _ _ _ c).
  - intros w1 Hc Hcreate. rewrite (init_absent _ _ _ _ Hc), Hcreate.
    split; [done|]. by apply create_collection_ok_inv in Hcreate as [? _].
  - intros e w1 Hc Hcreate. by rewrite (init_absent _ _ _ _ Hc), Hcreate.
Qed.

End InitFacts.

(** ** vector_db.py: [search] *)

Section SearchFacts.

Context {Vec : Type}.
Variable similarity : Distance -> Vec -> Vec -> Z.
Implicit Types (w : World Vec) (c : Collection Vec) (self : QdrantStorage).
Implicit Types (results hits : list ScoredPoint).

#[local] Instance ranks_before_total : Total ranks_before.
Proof. intros p q. unfold ranks_before. lia. Qed.

#[local] Instance ranks_before_trans : Transitive ranks_before.
Proof. intros p q r. unfold ranks_before. lia. Qed.

Lemma StronglySorted_sublist {A} (R : relation A) (l1 l2 : list A) :
  l1 `sublist_of` l2 -> StronglySorted R l2 -> StronglySorted R l1.
Proof.
  induction 1 as [|x l1 l2 Hsub IH|x l1 l2 Hsub IH]; intros Hsorted.
  - constructor.
  - apply StronglySorted_inv in Hsorted as [Hs Hall]. constructor; [auto|].
    rewrite Forall_forall in Hall |- *. intros y Hy. apply Hall.
    by apply (elem_of_sublist l1 l2).
  - apply StronglySorted_inv in Hsorted as [Hs _]. auto.
Qed.

Lemma ranked_sorted c (q : Vec) b : StronglySorted ranks_before (ranked similarity c q b).
Proof. apply StronglySorted_merge_sort; apply _. Qed.

Lemma ranked_length c (q : Vec) b : length (ranked similarity c q b) = size (cl_points c).
Proof.
  unfold ranked. rewrite (Permutation_length (merge_sort_Permutation _ _)).
  by rewrite length_fmap, length_map_to_list.
Qed.

Lemma ranked_empty c (q : Vec) b : cl_points c = ∅ -> ranked similarity c q b = [].
Proof. intros Hempty. unfold ranked. by rewrite Hempty, map_to_list_empty. Qed.

(** Every ranked result is a stored point with its score and payload. *)
Lemma ranked_stored c (q : Vec) p :
  p ∈ ranked similarity c q true ->
  exists sp, cl_points c !! sp_id p = Some sp
             /\ sp_score p = similarity (vp_distance c) q (st_vector sp)
             /\ sp_payload p = st_payload sp.
Proof.
  unfold ranked. rewrite merge_sort_Permutation.
  intros [[id sp] [-> Hin]]%list_elem_of_fmap.
  apply elem_of_map_to_list in Hin. exists sp. auto.
Qed.

Lemma foldl_collect results acc :
  foldl collect acc results
  = ((acc.1 ++ ((fun r => payload_get r "text") <$> surviving results))%list,
     acc.2 ∪ list_to_set ((fun r => payload_get r "source") <$> surviving results)).
Proof.
  revert acc. induction results as [|r results IH]; intros [ctxs srcs]; simpl.
  - rewrite app_nil_r. f_equal. set_solver.
  - rewrite IH. unfold collect, surviving. rewrite filter_cons.
    destruct (truthy (payload_get r "text")) eqn:Ht; simpl.
    + f_equal; [by rewrite <- app_assoc | set_solver].
    + done.
Qed.

(** [search] on an existing collection, with a positive limit. *)
Lemma search_run self (q : Vec) (k : Z) w c :
  (0 < k)%Z ->
  collections w !! qs_collection self = Some c ->
  let hits := surviving (take (Z.to_nat k) (ranked similarity c q true)) in
  search similarity self q k w
  = (Ok {| sd_contexts := (fun r => payload_get r "text") <$> hits;
           sd_sources := elements (list_to_set (C:=gset string)
                                     ((fun r => payload_get r "source") <$> hits)) |}, w).
Proof.
  intros Hk Hc hits. unfold search, bind, query_points, ret. rewrite Hc.
  destruct (Z.ltb_spec k 1); [lia|]. rewrite foldl_collect. simpl.
  by rewrite union_empty_l_L.
Qed.

(** C4: for every query vector and every positive [k], [search] on the
    adapter's collection returns at most [k] contexts and at most as many as
    there are stored points; the contexts are the texts of stored points
    listed by decreasing similarity to the query under the collection's
    metric. *)
Theorem search_at_most_k_by_decreasing_similarity self (q : Vec) (k : Z) w c :
  (0 < k)%Z ->
  collections w !! qs_collection self = Some c ->
  exists r hits,
    search similarity self q k w = (Ok r, w)
    /\ sd_contexts r = (fun p => payload_get p "text") <$> hits
    /\ (Z.of_nat (length (sd_contexts r)) <= k)%Z
    /\ length (sd_contexts r) <= size (cl_points c)
    /\ StronglySorted (fun p p' => (sp_score p' <= sp_score p)%Z) hits
    /\ Forall (fun p => exists sp,
                 cl_points c !! sp_id p = Some sp
                 /\ sp_score p = similarity (vp_distance c) q (st_vector sp)
                 /\ sp_payload p = st_payload sp) hits.
Proof.
  intros Hk Hc. eexists _, _. split; [by apply search_run|]. simpl.
  set (top := take (Z.to_nat k) (ranked similarity c q true)).
  assert (Hsub : surviving top `sublist_of` ranked similarity c q true).
  { etrans; [apply sublist_filter|apply sublist_take]. }
  pose proof (sublist_length _ _ Hsub) as Hlen. rewrite ranked_length in Hlen.
  assert (length (surviving top) <= Z.to_nat k).
  { etrans; [apply length_filter|]. unfold top. rewrite length_take. lia. }
  rewrite length_fmap. repeat split; [lia|lia| |].
  - apply (StronglySorted_sublist _ _ _ Hsub), ranked_sorted.
  - apply Forall_forall. intros p Hp. apply ranked_stored.
    by apply (elem_of_sublist _ _ _ Hp).
Qed.

(** C8: a returned point whose payload has no ['text'], or an empty one, is
    dropped without notice: the contexts are the texts of the other returned
    points, in order; the sources are the distinct ['source'] values of those
    other points, each once; and when a dropped point is among the [top_k]
    best of a store holding at least [top_k] points, fewer than [top_k]
    contexts come back. *)
Theorem search_drops_results_without_text self (q : Vec) (k : Z) w c :
  (0 < k)%Z ->
  collections w !! qs_collection self = Some c ->
  let returned := take (Z.to_nat k) (ranked similarity c q true) in
  exists r,
    search similarity self q k w = (Ok r, w)
    /\ sd_contexts r
       = (fun p => payload_get p "text")
           <$> filter (fun p => payload_get p "text" <> "") returned
    /\ NoDup (sd_sources r)
    /\ (forall s, s ∈ sd_sources r <->
          exists p, p ∈ returned /\ payload_get p "text" <> ""
                    /\ payload_get p "source" = s)
    /\ ((Z.to_nat k <= size (cl_points c)) ->
        (exists p, p ∈ returned /\ payload_get p "text" = "") ->
        length (sd_contexts r) < Z.to_nat k).
Proof.
  intros Hk Hc returned.
  assert (Htruthy : forall s, truthy s <-> s <> "") by (intros []; simpl; naive_solver).
  assert (Hfilter : surviving returned
                    = filter (fun p => payload_get p "text" <> "") returned).
  { unfold surviving. apply list_filter_iff. intros p. apply Htruthy. }
  eexists. split; [by apply search_run|]. simpl. fold returned.
  split; [by rewrite Hfilter|]. split; [apply NoDup_elements|]. split.
  - intros s. rewrite elem_of_elements, elem_of_list_to_set, list_elem_of_fmap.
    rewrite Hfilter. split.
    + intros (p & -> & [Hp Hin]%list_elem_of_filter). eauto.
    + intros (p & Hin & Hp & <-). exists p. split; [done|].
      by apply list_elem_of_filter.
  - intros Hsize (p & Hin & Hp). rewrite length_fmap, Hfilter.
    eapply Nat.lt_le_trans; [apply (length_filter_lt _ _ p); [done|]|].
    + intros Hne. by apply Hne.
    + unfold returned. rewrite length_take. lia.
Qed.

End SearchFacts.

(** ** vector_db.py: [search] on an empty collection *)

Section EmptySearch.

Context {Vec : Type}.
Variable similarity : Distance -> Vec -> Vec -> Z.

(** The number of components of a vector.  The database refuses a query
    whose dimension is not the collection's, a refusal the model of
    [query_points] leaves out; a statement that carries
    [dimension q = vp_size c] is made of the queries the database accepts. *)
Variable dimension : Vec -> nat.
Implicit Types (w : World Vec) (c : Collection Vec) (self : QdrantStorage).


End EmptySearch.

(** ** main.py: the ingest workflow *)

Section IngestFacts.

Context {Vec : Type}.
Variable uuid5 : string -> string -> string.
Implicit Types (w : World Vec) (c : Collection Vec) (svc : Services Vec).
Implicit Types (cs : RAGChunkAndSrc).

Lemma comprehension_fmap {A B} (f : nat -> Res B) (g : A -> B) (l : list A) from :
  (forall i a, l !! i = Some a -> f (from + i) = Ok (g a)) ->
  comprehension f from (length l) = Ok (g <$> l).
Proof.
  revert from. induction l as [|a l IH]; intros from Hf; simpl; [done|].
  rewrite <- (Nat.add_0_r from) at 1. rewrite (Hf 0 a eq_refl).
  rewrite IH; [done|]. intros i b Hi. rewrite Nat.add_succ_comm. by apply Hf.
Qed.

Lemma payloads_built source_id chunks :
  comprehension (payload_at source_id chunks) 0 (length chunks)
  = Ok (chunk_payload source_id <$> chunks).
Proof.
  apply comprehension_fmap. intros i text Hi. unfold payload_at, getitem.
  simpl. by rewrite Hi.
Qed.

Lemma put_points_lookup_written (points : list (PointStruct Vec)) pts id :
  id ∈ ps_id <$> points ->
  exists p, p ∈ points /\ ps_id p = id
            /\ foldl put_point pts points !! id = Some (as_stored p).
Proof.
  induction points as [|p points IH] using rev_ind; [by intros ?%elem_of_nil|].
  rewrite fmap_app, foldl_app. simpl. intros Hin.
  destruct (decide (ps_id p = id)) as [Heq|Hne].
  - exists p. split; [apply elem_of_app; right; by left|]. split; [done|].
    unfold put_point. rewrite <- Heq. apply lookup_insert_eq.
  - apply elem_of_app in Hin as [Hin|Hin].
    + destruct (IH Hin) as (p' & Hp' & Hid & Hlook). exists p'.
      split; [apply elem_of_app; by left|]. split; [done|].
      unfold put_point. by rewrite lookup_insert_ne.
    + apply list_elem_of_singleton in Hin. congruence.
Qed.

(** The identifiers [_upsert] computes for a document. *)
Lemma ingest_ids_length cs :
  length (point_id uuid5 (source_id cs) <$> seq 0 (length (chunk cs))) = length (chunk cs).
Proof. by rewrite length_fmap, length_seq. Qed.

(** What a run of [_upsert] that returns has done. *)
Lemma _upsert_ok_inv svc cs w r w1 :
  _upsert uuid5 svc cs w = (Ok r, w1) ->
  exists points w0 c0,
    collections w0 !! default_collection = Some c0
    /\ ps_id <$> points = point_id uuid5 (source_id cs) <$> seq 0 (length (chunk cs))
    /\ (forall p, p ∈ points -> ps_payload p !! "source" = Some (source_id cs))
    /\ w1 = set_collections w0
              (<[default_collection := put_points c0 points]> (collections w0))
    /\ ingested r = length (chunk cs).
Proof.
  unfold _upsert. intros Hrun.
  apply bind_ok_inv in Hrun as (vectors & wa & _ & Hrun).
  apply bind_ok_inv in Hrun as (payloads & wb & [Hpay ->]%lift_ok_inv & Hrun).
  apply bind_ok_inv in Hrun as (storage & w0 & Hinit & Hrun).
  apply bind_ok_inv in Hrun as ([] & wc & Hup & Hret).
  injection Hret as <- <-.
  apply init_ok_inv in Hinit as (-> & [c0 Hc0] & _).
  rewrite payloads_built in Hpay. injection Hpay as <-.
  destruct (upsert_cases {| qs_url := default_url; qs_collection := default_collection;
                            qs_dim := default_dim |}
              (point_id uuid5 (source_id cs) <$> seq 0 (length (chunk cs)))
              vectors (chunk_payload (source_id cs) <$> chunk cs) w0)
    as [[e He]|(c & points & Hc & Hpoints & Hok)]; [congruence|].
  simpl in Hc. rewrite Hc0 in Hc. injection Hc as <-.
  rewrite Hok in Hup. injection Hup as <-.
  exists points, w0, c0. split; [done|]. split; [by apply built_points_ids in Hpoints|].
  split; [|split; [done|simpl; apply ingest_ids_length]].
  intros p [i Hi]%list_elem_of_lookup.
  apply comprehension_ok_inv in Hpoints as [_ Hat]. apply Hat in Hi. simpl in Hi.
  apply point_at_ok_inv in Hi as (_ & _ & Hpl).
  rewrite list_lookup_fmap in Hpl. destruct (chunk cs !! i); [|done].
  injection Hpl as <-. unfold chunk_payload.
  rewrite lookup_insert_ne by done. apply lookup_insert_eq.
Qed.

(** A run of [_upsert] on a world that has the collection fails before it
    writes, or writes the document's identifiers. *)
Lemma _upsert_existing svc cs w c r w1 :
  collections w !! default_collection = Some c ->
  _upsert uuid5 svc cs w = (r, w1) ->
  w1 = w
  \/ exists points,
       ps_id <$> points = point_id uuid5 (source_id cs) <$> seq 0 (length (chunk cs))
       /\ w1 = set_collections w
                 (<[default_collection := put_points c points]> (collections w)).
Proof.
  intros Hc. unfold _upsert, bind, embed_texts, lift.
  destruct (embeddings_create svc _ _) as [vectors|e]; [|intros [= _ <-]; by left].
  rewrite payloads_built, (init_existing _ _ _ _ c Hc).
  match goal with |- context [upsert ?s ?i ?v ?p w] =>
    destruct (upsert_cases s i v p w) as [[e ->]|(c' & points & Hc' & Hpoints & ->)]
  end.
  - intros [= _ <-]. by left.
  - simpl in Hc'. rewrite Hc in Hc'. injection Hc' as <-.
    intros [= _ <-]. right. exists points. split; [|done].
    by apply built_points_ids in Hpoints.
Qed.

Lemma indexed_after_put w c points :
  indexed (set_collections w (<[default_collection := put_points c points]> (collections w)))
  = foldl put_point (cl_points c) points.
Proof. unfold indexed. simpl. by rewrite lookup_insert_eq. Qed.

(** C1: the identifier [_upsert] gives chunk [i] of source [s] is
    [uuid5] of the string ["s:i"], whatever the services answer; so a
    second ingest of the same source and chunks, whether it succeeds or
    fails and whatever vectors it embeds, writes under the identifiers of
    the first and leaves as many indexed points as the first left. *)
Theorem reingest_keeps_point_count (svc1 svc2 : Services Vec) cs w r1 w1 :
  _upsert uuid5 svc1 cs w = (Ok r1, w1) ->
  let ids := (fun i => uuid5 NAMESPACE_URL (source_id cs +:+ ":" +:+ pretty i))
               <$> seq 0 (length (chunk cs)) in
  ingested r1 = length ids
  /\ (forall id, id ∈ ids -> id ∈ dom (indexed w1))
  /\ forall r2 w2,
       _upsert uuid5 svc2 cs w1 = (r2, w2) ->
       dom (indexed w2) = dom (indexed w1)
       /\ size (indexed w2) = size (indexed w1)
       /\ forall r2', r2 = Ok r2' -> ingested r2' = ingested r1.
Proof.
  intros Hrun ids.
  destruct (_upsert_ok_inv _ _ _ _ _ Hrun) as (points & w0 & c0 & Hc0 & Hids & _ & -> & Hn).
  assert (Hdom1 : forall id, id ∈ ids ->
            id ∈ dom (indexed (set_collections w0
                   (<[default_collection := put_points c0 points]> (collections w0))))).
  { intros id Hid. rewrite indexed_after_put, put_points_dom, Hids.
    apply elem_of_union_r, elem_of_list_to_set, Hid. }
  split; [by rewrite Hn; unfold ids; rewrite length_fmap, length_seq|].
  split; [done|]. intros r2 w2 Hrun2.
  assert (Hdom : dom (indexed w2)
                 = dom (indexed (set_collections w0
                     (<[default_collection := put_points c0 points]> (collections w0))))).
  { eapply _upsert_existing in Hrun2 as [->|(points2 & Hids2 & ->)];
      [done| |simpl; apply lookup_insert_eq].
    rewrite indexed_after_put. simpl. rewrite put_points_dom, Hids2.
    rewrite indexed_after_put, put_points_dom, Hids. set_solver. }
  split; [done|]. split.
  - by rewrite <- !size_dom, Hdom.
  - intros r2' ->. apply _upsert_ok_inv in Hrun2 as (_ & _ & _ & _ & _ & _ & _ & ->).
    by rewrite Hn.
Qed.

(** C10: when the event data has no [source_id], the path string of the
    document is the source identifier of the loaded chunks, of every payload
    written and of every point identifier. *)
Theorem missing_source_id_defaults_to_path svc (data : gmap string PyVal) w r w1 :
  data !! "source_id" = None ->
  rag_ingest_pdf uuid5 svc data w = (Ok r, w1) ->
  exists v cs,
    data !! "pdf_file_path" = Some v
    /\ _load svc data w = (Ok cs, w)
    /\ source_id cs = py_str v
    /\ ingested r = length (chunk cs)
    /\ forall i, i < length (chunk cs) ->
         exists sp payload,
           indexed w1 !! uuid5 NAMESPACE_URL (py_str v +:+ ":" +:+ pretty i) = Some sp
           /\ st_payload sp = Some payload
           /\ payload !! "source" = Some (py_str v).
Proof.
  intros Hnone Hrun. unfold rag_ingest_pdf, step_run in Hrun.
  apply bind_ok_inv in Hrun as (cs & wa & Hload & Hrun).
  apply bind_ok_inv in Hrun as (r' & wb & Hup & Hret). injection Hret as <- <-.
  assert (Hload' := Hload). unfold _load, data_getitem in Hload'.
  destruct (data !! "pdf_file_path") as [v|] eqn:Hpath; [|discriminate].
  apply bind_ok_inv in Hload' as (v' & w' & [= <- <-] & Hload').
  apply bind_ok_inv in Hload' as (chunks & w'' & Hchunks & [= <- <-]).
  assert (w'' = w) as ->.
  { unfold load_and_chunk_pdf, bind, lift in Hchunks.
    destruct (pdf_load_data svc (py_str v)); by injection Hchunks. }
  rewrite Hnone in *. simpl in *.
  exists v, {| chunk := chunks; source_id := py_str v |}. repeat split; [done..| |].
  - by apply _upsert_ok_inv in Hup as (_ & _ & _ & _ & _ & _ & _ & ->).
  - intros i Hi.
    apply _upsert_ok_inv in Hup as (points & w0 & c0 & Hc0 & Hids & Hsrc & -> & _).
    simpl in *. rewrite indexed_after_put.
    destruct (put_points_lookup_written points (cl_points c0)
                (uuid5 NAMESPACE_URL (py_str v +:+ ":" +:+ pretty i)))
      as (p & Hp & _ & ->).
    { rewrite Hids. apply list_elem_of_fmap. exists i. split; [done|].
      apply elem_of_seq. lia. }
    exists (as_stored p), (ps_payload p). auto.
Qed.

End IngestFacts.

(** ** main.py and evaluate_rag.py: answering a question *)

Section QueryFacts.

Context {Vec : Type}.
Variable similarity : Distance -> Vec -> Vec -> Z.
Variable int_of_str : string -> option Z.
Implicit Types (w : World Vec) (svc : Services Vec) (data : gmap string PyVal).

Lemma search_ok_inv self (q : Vec) (k : Z) w r w1 :
  search similarity self q k w = (Ok r, w1) ->
  w1 = w
  /\ exists hits,
       sd_contexts r = (fun p => payload_get p "text") <$> hits
       /\ sd_sources r = elements (list_to_set (C:=gset string)
                                     ((fun p => payload_get p "source") <$> hits)).
Proof.
  unfold search. intros (results & w0 & Hq & Hret)%bind_ok_inv.
  injection Hret as <- <-. split.
  - unfold query_points in Hq. destruct (collections w !! qs_collection self); [|done].
    destruct (k <? 1)%Z; by injection Hq.
  - exists (surviving results). rewrite foldl_collect. simpl.
    by rewrite union_empty_l_L.
Qed.

(** The retrieval step shared by the workflow and the harness. *)
Lemma retrieval_ok_inv svc (question : string) (k : Z) w r w1 :
  (vectors <- embed_texts svc [question];
   query_vector <- lift (getitem vectors 0);
   storage <- QdrantStorage_init default_url default_collection default_dim;
   search similarity storage query_vector k) w = (Ok r, w1) ->
  environ w1 = environ w /\ (sd_contexts r = [] -> sd_sources r = []).
Proof.
  intros (vectors & wa & [_ ->]%lift_ok_inv & Hrun)%bind_ok_inv.
  apply bind_ok_inv in Hrun as (qv & wb & [_ ->]%lift_ok_inv & Hrun).
  apply bind_ok_inv in Hrun as (storage & wc & Hinit & Hsearch).
  apply init_ok_inv in Hinit as (_ & _ & Henv).
  apply search_ok_inv in Hsearch as (-> & hits & Hc & Hs). split; [done|].
  rewrite Hc, Hs. intros ->%fmap_nil_inv. simpl. apply elements_empty.
Qed.

Lemma _search_ok_inv svc (question : string) (k : Z) w sr w1 :
  _search similarity svc question k w = (Ok sr, w1) ->
  environ w1 = environ w /\ (contexts sr = [] -> sources sr = []).
Proof.
  unfold _search. intros Hrun.
  destruct ((vectors <- embed_texts svc [question];
             query_vector <- lift (getitem vectors 0);
             storage <- QdrantStorage_init default_url default_collection default_dim;
             search similarity storage query_vector k) w) as [[r|e] w'] eqn:Hret.
  - apply retrieval_ok_inv in Hret as Hfacts.
    unfold bind in Hrun, Hret.
    destruct (embed_texts svc [question] w) as [[vectors|?] wa]; [|done].
    destruct (lift (getitem vectors 0) wa) as [[qv|?] wb]; [|done].
    destruct (QdrantStorage_init _ _ _ wb) as [[storage|?] wc]; [|done].
    rewrite Hret in Hrun. injection Hrun as <- <-. done.
  - unfold bind in Hrun, Hret.
    destruct (embed_texts svc [question] w) as [[vectors|?] wa]; [|done].
    destruct (lift (getitem vectors 0) wa) as [[qv|?] wb]; [|done].
    destruct (QdrantStorage_init _ _ _ wb) as [[storage|?] wc]; [|done].
    by rewrite Hret in Hrun.
Qed.

(** The workflow's answer is the first completion, stripped. *)
Lemma rag_query_pdf_ai_answer svc data w out w1 :
  rag_query_pdf_ai similarity int_of_str svc data w = (Ok out, w1) ->
  exists body text rest,
    chat_completions_create svc body = Ok (text :: rest)
    /\ answer out = strip text.
Proof.
  unfold rag_query_pdf_ai, step_run, step_ai_infer.
  intros (v & wa & _ & Hrun)%bind_ok_inv.
  apply bind_ok_inv in Hrun as (question & wb & _ & Hrun).
  apply bind_ok_inv in Hrun as (top_k & wc & _ & Hrun).
  apply bind_ok_inv in Hrun as (sr & wd & _ & Hrun).
  apply bind_ok_inv in Hrun as (key & we & _ & Hrun).
  apply bind_ok_inv in Hrun as ([] & wf & _ & Hrun).
  apply bind_ok_inv in Hrun as (res & wg & [Hchat _]%lift_ok_inv & Hrun).
  apply bind_ok_inv in Hrun as (choice & wh & [Hchoice _]%lift_ok_inv & Hret).
  injection Hret as <- <-. unfold getitem in Hchoice.
  destruct res as [|text rest]; [done|]. injection Hchoice as <-. eauto.
Qed.

(** The harness's answer is the first completion as it came. *)
Lemma run_rag_query_answer svc (question : string) (k : Z) w r w1 :
  run_rag_query similarity svc question k w = (Ok r, w1) ->
  r_question r = question
  /\ exists rest,
       chat_completions_create svc
         (chat_body (user_content_of (context_block_of (r_contexts r)) question))
       = Ok (r_answer r :: rest).
Proof.
  unfold run_rag_query.
  intros (vectors & wa & _ & Hrun)%bind_ok_inv.
  apply bind_ok_inv in Hrun as (qv & wb & _ & Hrun).
  apply bind_ok_inv in Hrun as (storage & wc & _ & Hrun).
  apply bind_ok_inv in Hrun as (sd & wd & _ & Hrun).
  apply bind_ok_inv in Hrun as (response & we & [Hchat _]%lift_ok_inv & Hrun).
  apply bind_ok_inv in Hrun as (ans & wf & [Hans _]%lift_ok_inv & Hret).
  injection Hret as <- <-. simpl. split; [done|]. unfold getitem in Hans.
  destruct response as [|text rest]; [done|]. injection Hans as <-. eauto.
Qed.

(** C3: when the retrieval step of the query workflow returns no context,
    the workflow goes on: with the API key configured it sends the model the
    prompt whose context block is empty and, the model having answered,
    returns that answer (stripped), no source and [num_contexts = 0]. *)
Theorem query_without_contexts_still_answers svc data (question key text : string)
    (rest : list string) (k : Z) w sr w1 :
  data !! "question" = Some (PyStr question) ->
  py_int int_of_str (default (PyInt 5) (data !! "top_k")) = Ok k ->
  _search similarity svc question k w = (Ok sr, w1) ->
  contexts sr = [] ->
  environ w !! "OPENAI_API_KEY" = Some key ->
  key <> "" ->
  chat_completions_create svc (chat_body (user_content_of "" question))
  = Ok (text :: rest) ->
  rag_query_pdf_ai similarity int_of_str svc data w
  = (Ok {| answer := strip text; out_sources := []; num_contexts := 0 |}, w1).
Proof.
  intros Hq Hk Hsearch Hnone Hkey Hset Hchat.
  destruct (_search_ok_inv _ _ _ _ _ _ Hsearch) as [Henv Hsrc].
  unfold rag_query_pdf_ai, step_run, step_ai_infer, data_getitem. rewrite Hq.
  unfold bind at 1. simpl. unfold bind at 1. simpl. rewrite Hk.
  unfold bind at 1. simpl. unfold bind at 1. rewrite Hsearch.
  unfold bind at 1, getenv. rewrite Henv, Hkey. simpl.
  destruct key as [|c key]; [done|]. simpl.
  unfold bind at 1. simpl. rewrite Hnone. unfold context_block_of. simpl.
  unfold bind at 1, lift. rewrite Hchat. simpl.
  by rewrite Hsrc.
Qed.

End QueryFacts.

(** ** evaluate_rag.py: the evaluation run *)

Section EvalFacts.

Context {Vec : Type}.
Variable similarity : Distance -> Vec -> Vec -> Z.
Implicit Types (w : World Vec) (svc : Services Vec).
Implicit Types (results : list EvalResult) (outs : list (Res EvalResult)).

Lemma ok_results_app {A} (l1 l2 : list (Res A)) :
  ok_results (l1 ++ l2)%list = (ok_results l1 ++ ok_results l2)%list.
Proof. apply omap_app. Qed.

(** Outcomes without an exception are all kept, in place. *)
Lemma ok_results_all_ok {A} (l : list (Res A)) :
  (forall k e, l !! k <> Some (Raised e)) -> Ok <$> ok_results l = l.
Proof.
  induction l as [|[a|e] l IH]; intros Hok; [done| |].
  - unfold ok_results. simpl. f_equal. apply IH. intros k e. apply (Hok (S k)).
  - by destruct (Hok 0 e).
Qed.

(** With one failure, at [j], every later success moves up one place. *)
Lemma ok_results_after_failure {A} (l : list (Res A)) j e i a :
  l !! j = Some (Raised e) ->
  (forall j' e', l !! j' = Some (Raised e') -> j' = j) ->
  j < i ->
  l !! i = Some (Ok a) ->
  ok_results l !! (i - 1) = Some a /\ length (ok_results l) = length l - 1.
Proof.
  intros Hj Honly Hji Hi.
  pose proof (take_drop_middle l j _ Hj) as Hsplit.
  pose proof (lookup_lt_Some _ _ _ Hj) as Hjlen.
  assert (Hbefore : Ok <$> ok_results (take j l) = take j l).
  { apply ok_results_all_ok. intros k e' Hk.
    apply lookup_take_Some in Hk as [Hk Hlt]. apply Honly in Hk. lia. }
  assert (Hafter : Ok <$> ok_results (drop (S j) l) = drop (S j) l).
  { apply ok_results_all_ok. intros k e' Hk.
    rewrite lookup_drop in Hk. apply Honly in Hk. lia. }
  assert (Hlen1 : length (ok_results (take j l)) = j).
  { rewrite <- (length_fmap Ok), Hbefore, length_take. lia. }
  assert (Hlen2 : length (ok_results (drop (S j) l)) = length l - S j).
  { by rewrite <- (length_fmap Ok), Hafter, length_drop. }
  assert (Hres : ok_results l
                 = (ok_results (take j l) ++ ok_results (drop (S j) l))%list).
  { transitivity (ok_results (take j l ++ Raised e :: drop (S j) l)%list);
      [by rewrite Hsplit|]. by rewrite ok_results_app. }
  rewrite Hres. split.
  - rewrite lookup_app_r by lia. rewrite Hlen1.
    assert (Hi' : drop (S j) l !! (i - 1 - j) = Some (Ok a)).
    { rewrite lookup_drop. by replace (S j + (i - 1 - j)) with i by lia. }
    rewrite <- Hafter, list_lookup_fmap in Hi'.
    destruct (ok_results (drop (S j) l) !! (i - 1 - j)); simpl in Hi'; congruence.
  - rewrite length_app, Hlen1, Hlen2. lia.
Qed.

Lemma query_loop_run svc questions results w :
  (query_loop similarity svc questions results w).1
  = Ok (results ++ ok_results (query_outcomes similarity svc questions w))%list.
Proof.
  revert results w. induction questions as [|question rest IH]; intros results w; simpl.
  - unfold ret. simpl. by rewrite app_nil_r.
  - unfold bind, try_except.
    destruct (run_rag_query similarity svc question 5 w) as [[r|e] w1]; simpl.
    + rewrite IH. unfold ok_results. simpl. by rewrite <- app_assoc.
    + rewrite IH. done.
Qed.

Lemma query_outcomes_length svc questions w :
  length (query_outcomes similarity svc questions w) = length questions.
Proof.
  revert w. induction questions as [|q rest IH]; intros w; simpl; [done|].
  by rewrite IH.
Qed.

(** A result belongs to the question at its place in the list. *)
Lemma query_outcomes_question svc questions w i r :
  query_outcomes similarity svc questions w !! i = Some (Ok r) ->
  questions !! i = Some (r_question r).
Proof.
  revert w i. induction questions as [|q rest IH]; intros w i; simpl; [done|].
  destruct i as [|i]; simpl.
  - intros [= Hr].
    destruct (run_rag_query similarity svc q 5 w) as [out w1] eqn:Hrun.
    simpl in Hr. subst out. by apply run_rag_query_answer in Hrun as [-> _].
  - apply IH.
Qed.

(** Row [k] of the dataset: result [k] beside reference answer [k]. *)
Lemma dataset_rows results :
  length results <= length ground_truths ->
  exists rows,
    Dataset_from_dict (build_data results) = Ok rows
    /\ length rows = length results
    /\ forall k r, results !! k = Some r ->
         exists g, ground_truths !! k = Some g
                   /\ rows !! k = Some {| row_question := r_question r;
                                          row_answer := r_answer r;
                                          row_contexts := r_contexts r;
                                          row_ground_truth := g |}.
Proof.
  intros Hlen. unfold Dataset_from_dict, build_data. simpl.
  rewrite !length_fmap, length_take, bool_decide_eq_true_2 by lia.
  match goal with |- context [comprehension ?f 0 _] =>
    destruct (comprehension_total f 0 (length results)) as [rows Hrows]
  end.
  { intros i Hi. simpl. unfold getitem. rewrite !list_lookup_fmap.
    destruct (lookup_lt_is_Some_2 results i Hi) as [r ->]. simpl.
    destruct (lookup_lt_is_Some_2 (take (length results) ground_truths) i) as [g ->];
      [rewrite length_take; lia|eauto]. }
  exists rows. split; [done|].
  apply comprehension_ok_inv in Hrows as [Hn Hat]. split; [done|].
  intros k r Hk. pose proof (lookup_lt_Some _ _ _ Hk) as Hklt.
  destruct (lookup_lt_is_Some_2 rows k) as [row Hrow]; [lia|].
  specialize (Hat _ _ Hrow). simpl in Hat. unfold getitem in Hat.
  rewrite !list_lookup_fmap, Hk in Hat. simpl in Hat.
  rewrite lookup_take_lt in Hat by done.
  destruct (ground_truths !! k) as [g|]; [|done]. injection Hat as <-. eauto.
Qed.

(** C9: when the query of exactly one question, the one at place [j],
    raises, that question is left out and the reference answers are paired
    with the remaining results by position: the answer to every later
    question [i] sits in row [i - 1] beside the reference answer of question
    [i - 1], which is not its own. *)
Theorem skipped_question_shifts_references svc w j e i r :
  query_outcomes similarity svc test_questions w !! j = Some (Raised e) ->
  (forall j' e', query_outcomes similarity svc test_questions w !! j' = Some (Raised e') ->
                 j' = j) ->
  j < i ->
  query_outcomes similarity svc test_questions w !! i = Some (Ok r) ->
  exists rows q g_prev,
    (evaluation_dataset similarity svc w).1 = Ok (Scored rows)
    /\ length rows = length test_questions - 1
    /\ test_questions !! i = Some q
    /\ ground_truths !! (i - 1) = Some g_prev
    /\ rows !! (i - 1) = Some {| row_question := q;
                                 row_answer := r_answer r;
                                 row_contexts := r_contexts r;
                                 row_ground_truth := g_prev |}
    /\ ground_truths !! i <> Some g_prev.
Proof.
  intros Hj Honly Hji Hi.
  destruct (ok_results_after_failure _ _ _ _ _ Hj Honly Hji Hi) as [Hrow Hcount].
  rewrite query_outcomes_length in Hcount.
  pose proof (query_loop_run svc test_questions [] w) as Hloop.
  rewrite app_nil_l in Hloop.
  set (results := ok_results (query_outcomes similarity svc test_questions w)) in *.
  destruct (dataset_rows results) as (rows & Hds & Hrows & Hat).
  { rewrite Hcount. simpl. lia. }
  destruct (Hat _ _ Hrow) as (g & Hg & Hrowk).
  exists rows, (r_question r), g.
  split.
  { unfold evaluation_dataset, bind at 1.
    destruct (query_loop similarity svc test_questions [] w) as [out w1] eqn:Hrun.
    simpl in Hloop. subst out. unfold bind, lift, ret, raise.
    destruct results as [|r0 results']; [done|].
    rewrite bool_decide_eq_false_2 by done. simpl. by rewrite Hds. }
  split; [by rewrite Hrows|]. split; [by apply query_outcomes_question in Hi|].
  split; [done|]. split; [done|].
  pose proof (lookup_lt_Some _ _ _ Hi) as Hilt.
  rewrite query_outcomes_length in Hilt. simpl in Hilt.
  clear -Hg Hji Hilt. intros Hown.
  destruct i as [|[|[|[|[|i]]]]]; simpl in *; try lia;
    injection Hg as <-; discriminate.
Qed.

End EvalFacts.

(** ** The properties on the concrete instance *)

Section Checks.

Import Demo.
Local Open Scope Z_scope.

(** C6 on two points, one of them overwriting what the collection holds. *)
Lemma upsert_writes_aligned_points_witness :
  exists c points,
    collections DemoMore.shelved !! default_collection = Some c
    /\ collections DemoMore.reshelved !! default_collection = Some (put_points c points)
    /\ length points = 2%nat
    /\ cl_points (put_points c points) !! DemoMore.id_five
       = Some (stored [7; 7] (Some {["text" := "seven"]}))
    /\ cl_points (put_points c points) !! DemoMore.id_one
       = cl_points c !! DemoMore.id_one.
Proof.
  destruct (upsert_writes_aligned_points adapter
              [DemoMore.id_five; DemoMore.id_new] [[7; 7]; [8; 8]]
              [{["text" := "seven"]}; {["source" := "docX"; "text" := "eight"]}]
              DemoMore.shelved DemoMore.reshelved)
    as (c & points & Hc & Hw1 & Hlen & Hat & Hlast & Hother);
    [reflexivity | reflexivity | vm_compute; reflexivity |].
  exists c, points. split; [done|]. split; [by rewrite Hw1; apply lookup_insert_eq|].
  split; [done|].
  destruct points as [|p points]; [discriminate|].
  destruct (Hat 0%nat p eq_refl) as (Hid & Hv & Hp).
  injection Hid as Hid. injection Hv as Hv. injection Hp as Hp.
  split.
  - rewrite Hid. rewrite (Hlast 0%nat p eq_refl).
    + unfold stored. by rewrite <- Hv, <- Hp.
    + rewrite <- Hid. intros [|[|j]] Hj; [lia|discriminate|discriminate].
  - apply Hother. vm_compute. intros Hin.
    repeat (apply elem_of_cons in Hin as [Heq|Hin]; [discriminate|]).
    by apply elem_of_nil in Hin.
Defined.

(** C1 on [doc1]: ingested into a fresh world, then ingested again. *)
Lemma reingest_keeps_point_count_witness :
  size (indexed after_doc1) = 3%nat
  /\ size (indexed (_upsert uuid5 svc doc1 after_doc1).2) = size (indexed after_doc1)
  /\ "uuid5/doc1:2" ∈ dom (indexed after_doc1).
Proof.
  destruct (reingest_keeps_point_count uuid5 svc svc doc1 fresh
              {| ingested := 3 |} after_doc1)
    as (Hn & Hids & Hagain); [vm_compute; reflexivity|].
  split; [vm_compute; reflexivity|]. split.
  - by destruct (Hagain _ _ eq_refl) as (_ & Hsize & _).
  - apply Hids. vm_compute. do 2 right. left.
Defined.

(** C2 (amended) on the default collection: found, absent, and absent with
    a request that fails. *)
Lemma init_keeps_existing_creates_absent_witness :
  QdrantStorage_init default_url default_collection default_dim (with_collection foreign [])
  = (Ok adapter, with_collection foreign [])
  /\ (exists w1,
        QdrantStorage_init default_url default_collection default_dim fresh
        = (Ok adapter, w1)
        /\ collections w1 !! default_collection
           = Some (empty_collection default_dim COSINE))
  /\ (QdrantStorage_init default_url default_collection default_dim
        (set_create_faults fresh [LostRequest TimedOut])).1
     = Raised (QdrantError (NotFound default_collection))
  /\ (QdrantStorage_init default_url default_collection default_dim
        (set_create_faults fresh [LostResponse TimedOut])).1
     = Ok adapter.
Proof.
  split; [|split; [|split]].
  - apply (proj1 (init_keeps_existing_creates_absent
                    default_url default_collection default_dim
                    (with_collection foreign [])) foreign).
    vm_compute; reflexivity.
  - eexists.
    apply (proj1 (proj2 (init_keeps_existing_creates_absent
                           default_url default_collection default_dim fresh))).
    + vm_compute; reflexivity.
    + reflexivity.
  - rewrite (proj2 (proj2 (init_keeps_existing_creates_absent
                             default_url default_collection default_dim
                             (set_create_faults fresh [LostRequest TimedOut])))
               (QdrantError TimedOut) fresh); [reflexivity| |];
      vm_compute; reflexivity.
  - rewrite (proj2 (proj2 (init_keeps_existing_creates_absent
                             default_url default_collection default_dim
                             (set_create_faults fresh [LostResponse TimedOut])))
               (QdrantError TimedOut)
               (set_collections fresh
                  {[default_collection := empty_collection default_dim COSINE]}));
      [reflexivity| |]; vm_compute; reflexivity.
Defined.

(** C2 as stated fails: a constructor configured for 3072 dimensions
    returns normally over a collection of 4 dimensions with the dot metric,
    having compared nothing; and a creation request that times out after the
    server applied it is not reported. *)
Lemma init_accepts_mismatched_collection :
  ~ (forall (w : World (list Z)) url name dim c self w1,
       collections w !! name = Some c ->
       QdrantStorage_init url name dim w = (Ok self, w1) ->
       vp_size c = dim /\ vp_distance c = COSINE)
  /\ ~ (forall (w : World (list Z)) url name dim e w1,
          collections w !! name = None ->
          create_collection name dim COSINE w = (Raised (QdrantError e), w1) ->
          e <> AlreadyExists name ->
          exists e' w2, QdrantStorage_init url name dim w = (Raised e', w2)).
Proof.
  split.
  - intros Hclaim.
    destruct (Hclaim (with_collection foreign []) default_url default_collection
                default_dim foreign adapter (with_collection foreign []))
      as [Hsize _]; [vm_compute; reflexivity..|]. discriminate.
  - intros Hclaim.
    destruct (Hclaim (set_create_faults fresh [LostResponse TimedOut]) default_url
                default_collection default_dim TimedOut
                (set_collections fresh
                   {[default_collection := empty_collection default_dim COSINE]}))
      as (e' & w2 & Hraised); [vm_compute; reflexivity..|discriminate|].
    vm_compute in Hraised. discriminate.
Qed.

(** C3 on a world without any point: the workflow answers. *)
Lemma query_without_contexts_still_answers_witness :
  (rag_query_pdf_ai similarity int_of_str svc {["question" := PyStr "hi"]} fresh).1
  = Ok {| answer := "forty-two"; out_sources := []; num_contexts := 0 |}.
Proof.
  rewrite (query_without_contexts_still_answers similarity int_of_str svc
             {["question" := PyStr "hi"]} "hi" "sk-test" completion ["unused"] 5 fresh
             {| contexts := []; sources := [] |}
             (_search similarity svc "hi" 5 fresh).2);
    [reflexivity | | | | | | discriminate | ]; vm_compute; reflexivity.
Defined.

(** C4 on [library], asking for the two best matches of [[1; 0]]. *)
Lemma search_at_most_k_by_decreasing_similarity_witness :
  exists r,
    search similarity adapter [1; 0] 2 stocked = (Ok r, stocked)
    /\ (length (sd_contexts r) <= 2)%nat
    /\ (length (sd_contexts r) <= 3)%nat.
Proof.
  destruct (search_at_most_k_by_decreasing_similarity similarity adapter [1; 0] 2
              stocked library)
    as (r & hits & Hrun & _ & Hk & Hsize & _); [lia | vm_compute; reflexivity |].
  exists r. split; [done|]. split; [lia|]. exact Hsize.
Defined.


(** C8 on [library]: the best match has an empty text, so asking for two
    results of three stored points yields one context. *)
Lemma search_drops_results_without_text_witness :
  exists r,
    search similarity adapter [1; 0] 2 stocked = (Ok r, stocked)
    /\ (size (cl_points library) = 3)%nat
    /\ (length (sd_contexts r) < 2)%nat
    /\ sd_contexts r = ["five"].
Proof.
  destruct (search_drops_results_without_text similarity adapter [1; 0] 2
              stocked library)
    as (r & Hrun & Hctx & _ & _ & Hfewer); [lia | vm_compute; reflexivity |].
  exists r. split; [done|]. split; [vm_compute; reflexivity|]. split.
  - apply Hfewer; [vm_compute; lia|].
    exists {| sp_id := "p0"; sp_score := 9;
              sp_payload := Some {["source" := "doc1"; "text" := ""]} |}.
    split; [vm_compute; left|vm_compute; reflexivity].
  - rewrite Hctx. vm_compute. reflexivity.
Defined.

(** C9 on [stocked]: the embedding of the third question fails, and the
    fourth question's answer is scored against the third reference answer. *)
Lemma skipped_question_shifts_references_witness :
  exists rows,
    (evaluation_dataset similarity svc stocked).1 = Ok (Scored rows)
    /\ length rows = 4%nat
    /\ rows !! 2%nat
       = Some {| row_question := "What problem does this address?";
                 row_answer := completion;
                 row_contexts := ["five"; "one"];
                 row_ground_truth := "The document presents findings and conclusions" |}.
Proof.
  destruct (skipped_question_shifts_references similarity svc stocked 2
              (ServiceError "EmbeddingServiceError") 3 fourth_result)
    as (rows & q & g & Hrun & Hlen & Hq & Hg & Hrow & _).
  - vm_compute; reflexivity.
  - intros j' e' Hj'.
    destruct j' as [|[|[|[|[|j']]]]]; vm_compute in Hj'; congruence.
  - lia.
  - vm_compute; reflexivity.
  - exists rows. split; [done|]. split; [done|].
    injection Hq as <-. injection Hg as <-. exact Hrow.
Defined.

(** C10 on an event that names only the file. *)
Lemma missing_source_id_defaults_to_path_witness :
  exists sp payload,
    indexed (rag_ingest_pdf uuid5 svc {["pdf_file_path" := PyStr "doc1.pdf"]} fresh).2
      !! "uuid5/doc1.pdf:1" = Some sp
    /\ st_payload sp = Some payload
    /\ payload !! "source" = Some "doc1.pdf".
Proof.
  destruct (missing_source_id_defaults_to_path uuid5 svc
              {["pdf_file_path" := PyStr "doc1.pdf"]} fresh {| ingested := 3 |}
              (rag_ingest_pdf uuid5 svc {["pdf_file_path" := PyStr "doc1.pdf"]} fresh).2)
    as (v & cs & Hv & Hload & Hsrc & Hn & Hat);
    [vm_compute; reflexivity | vm_compute; reflexivity |].
  injection Hv as <-. simpl in Hn.
  destruct (Hat 1%nat) as (sp & payload & Hsp & Hpl & Hs); [lia|].
  exists sp, payload. auto.
Defined.

(** C7 at the failing input: the model answers with surrounding
    whitespace; the workflow returns the stripped text, the harness's query
    returns the text as it came. *)
Theorem run_rag_query_returns_unstripped_answer :
  chat_completions_create svc
    (chat_body (user_content_of (context_block_of []) "hi")) = Ok [completion; "unused"]
  /\ (exists out,
        (rag_query_pdf_ai similarity int_of_str svc
           {["question" := PyStr "hi"]} fresh).1 = Ok out
        /\ answer out = strip completion)
  /\ (exists r,
        (run_rag_query similarity svc "hi" 5 fresh).1 = Ok r
        /\ r_answer r = completion)
  /\ completion <> strip completion.
Proof.
  split; [vm_compute; reflexivity|]. split; [|split].
  - exists {| answer := "forty-two"; out_sources := []; num_contexts := 0 |}.
    split; vm_compute; reflexivity.
  - exists {| r_question := "hi"; r_answer := completion;
              r_contexts := []; r_sources := [] |}.
    split; vm_compute; reflexivity.
  - vm_compute. discriminate.
Qed.

End Checks.

(** * Further properties of the code *)

(** ** vector_db.py: more on [upsert] and the constructor *)

Section StorageMore.

Context {Vec : Type}.
Implicit Types (w : World Vec) (c : Collection Vec) (self : QdrantStorage).

(** A comprehension stops at the first element that raises. *)
Lemma comprehension_raises {A} (f : nat -> Res A) from n i e :
  i < n ->
  f (from + i) = Raised e ->
  (forall j e', f j = Raised e' -> e' = e) ->
  comprehension f from n = Raised e.
Proof.
  revert from i. induction n as [|n IH]; intros from i Hi Hf Honly; [lia|]. simpl.
  destruct (f from) as [a|e'] eqn:Hfrom; [|by rewrite (Honly _ _ Hfrom)].
  destruct i as [|i]; [rewrite Nat.add_0_r in Hf; congruence|].
  rewrite (IH (S from) i); [done|lia| |done].
  by rewrite <- Nat.add_succ_comm in Hf.
Qed.

(** A comprehension reads its body only below the bound. *)
Lemma comprehension_ext {A} (f g : nat -> Res A) from n :
  (forall i, i < n -> f (from + i) = g (from + i)) ->
  comprehension f from n = comprehension g from n.
Proof.
  revert from. induction n as [|n IH]; intros from Heq; simpl; [done|].
  pose proof (Heq 0) as H0. rewrite Nat.add_0_r in H0. rewrite <- H0 by lia.
  rewrite (IH (S from)); [done|].
  intros i Hi. rewrite !Nat.add_succ_comm. apply Heq. lia.
Qed.

Lemma point_at_raises_index ids (vectors : list Vec) payloads i e :
  point_at ids vectors payloads i = Raised e -> e = IndexError.
Proof.
  unfold point_at, getitem.
  destruct (ids !! i), (vectors !! i), (payloads !! i); by intros [= <-].
Qed.

Lemma upsert_short_run self ids (vectors : list Vec) payloads w :
  length vectors < length ids \/ length payloads < length ids ->
  upsert self ids vectors payloads w = (Raised IndexError, w).
Proof.
  intros Hshort. unfold upsert, bind, lift.
  set (i := Nat.min (length vectors) (length payloads)).
  rewrite (comprehension_raises _ 0 (length ids) i IndexError); [done|lia| |].
  - simpl. unfold point_at, getitem.
    destruct (lookup_lt_is_Some_2 ids i) as [id ->]; [lia|].
    destruct (Nat.le_gt_cases (length vectors) (length payloads)).
    + rewrite (lookup_ge_None_2 vectors i) by lia. done.
    + rewrite (lookup_ge_None_2 payloads i) by lia. by destruct (vectors !! i).
  - intros j e'. apply point_at_raises_index.
Qed.

(** X1: when [vectors] or [payloads] is shorter than [ids], [upsert]
    raises [IndexError] while it builds the points and sends nothing: no
    point of the batch is written. *)
Theorem upsert_short_sequences_write_nothing self ids (vectors : list Vec) payloads w :
  length vectors < length ids \/ length payloads < length ids ->
  upsert self ids vectors payloads w = (Raised IndexError, w).
Proof. apply upsert_short_run. Qed.

(** X2: [upsert] reads [vectors] and [payloads] only at the positions of
    [ids]: whatever they hold beyond [len(ids)] is ignored without a word. *)
Theorem upsert_ignores_surplus self ids (vectors : list Vec) payloads w :
  upsert self ids vectors payloads w
  = upsert self ids (take (length ids) vectors) (take (length ids) payloads) w.
Proof.
  unfold upsert, bind, lift.
  rewrite (comprehension_ext (point_at ids vectors payloads)
             (point_at ids (take (length ids) vectors) (take (length ids) payloads))
             0 (length ids)); [done|].
  intros i Hi. simpl. unfold point_at, getitem. by rewrite !lookup_take_lt.
Qed.

Lemma deliver_create_keeps name size dist w :
  let w1 := (deliver_create (Vec:=Vec) name size dist w).2 in
  forall other c, collections w !! other = Some c -> collections w1 !! other = Some c.
Proof.
  unfold deliver_create. destruct (collections w !! name) eqn:Hname; simpl; [done|].
  intros other c Hother. rewrite lookup_insert_ne; [done|]. congruence.
Qed.

Lemma create_collection_keeps name size dist w other c :
  collections w !! other = Some c ->
  collections (create_collection (Vec:=Vec) name size dist w).2 !! other = Some c.
Proof.
  intros Hother. unfold create_collection.
  destruct (create_faults w) as [|[|e|e|raced] fs]; simpl.
  - by apply deliver_create_keeps.
  - by apply (deliver_create_keeps name size dist (set_create_faults w fs)).
  - done.
  - by apply (deliver_create_keeps name size dist (set_create_faults w fs)).
  - apply deliver_create_keeps. simpl.
    destruct (collections w !! name) eqn:Hname; simpl; [done|].
    rewrite lookup_insert_ne; [done|]. congruence.
Qed.

(** X3: however the constructor ends, with an adapter or with an error,
    every collection that existed before it ran is still there with the
    same parameters and the same points, and the process environment is
    unchanged. *)
Theorem init_preserves_collections url name dim w r w1 :
  QdrantStorage_init (Vec:=Vec) url name dim w = (r, w1) ->
  environ w1 = environ w
  /\ forall other c, collections w !! other = Some c -> collections w1 !! other = Some c.
Proof.
  destruct (collections w !! name) as [c0|] eqn:Hname.
  - rewrite (init_existing _ _ _ _ c0 Hname). by intros [= _ <-].
  - rewrite (init_absent _ _ _ _ Hname).
    pose proof (create_collection_environ name dim COSINE w) as Henv.
    pose proof (create_collection_keeps name dim COSINE w) as Hkeep.
    destruct (create_collection name dim COSINE w) as [[[]|e] w0]; simpl in *.
    + by intros [= _ <-].
    + destruct (collections w0 !! name); by intros [= _ <-].
Qed.

(** X4: once a constructor has returned, constructing again against the
    same server for the same collection, with any dimension, changes
    nothing and returns at once with an adapter of the new dimension. *)
Theorem init_again_is_noop url name dim self w w1 dim' :
  QdrantStorage_init (Vec:=Vec) url name dim w = (Ok self, w1) ->
  QdrantStorage_init url name dim' w1
  = (Ok {| qs_url := url; qs_collection := name; qs_dim := dim' |}, w1).
Proof.
  intros (_ & [c Hc] & _)%init_ok_inv. by apply (init_existing _ _ _ _ c).
Qed.

End StorageMore.

(** ** vector_db.py: more on [search] *)

Section SearchMore.

Context {Vec : Type}.
Variable similarity : Distance -> Vec -> Vec -> Z.
Implicit Types (w : World Vec) (c : Collection Vec) (self : QdrantStorage).

(** A search that returns ran over an existing collection with a positive
    limit, and changed nothing. *)
Lemma search_ok_inv_full self (q : Vec) (k : Z) w r w1 :
  search similarity self q k w = (Ok r, w1) ->
  w1 = w
  /\ exists c,
       collections w !! qs_collection self = Some c
       /\ (1 <= k)%Z
       /\ r = {| sd_contexts :=
                   (fun p => payload_get p "text")
                     <$> surviving (take (Z.to_nat k) (ranked similarity c q true));
                 sd_sources :=
                   elements (list_to_set (C:=gset string)
                     ((fun p => payload_get p "source")
                        <$> surviving (take (Z.to_nat k) (ranked similarity c q true)))) |}.
Proof.
  intros Hrun. assert (Hrun' := Hrun). revert Hrun'.
  unfold search at 1, bind, query_points.
  destruct (collections w !! qs_collection self) as [c|] eqn:Hc; [|done].
  destruct (Z.ltb_spec k 1) as [|Hk]; [done|]. intros [= _ <-].
  split; [done|]. exists c. split; [done|]. split; [done|].
  rewrite (search_run similarity self q k w c ltac:(lia) Hc) in Hrun.
  by injection Hrun as <-.
Qed.

Lemma surviving_text_nonempty (results : list ScoredPoint) p :
  p ∈ surviving results -> payload_get p "text" <> "".
Proof.
  unfold surviving. intros [Hp _]%list_elem_of_filter Hempty.
  rewrite Hempty in Hp. done.
Qed.

Lemma elements_list_to_set_length (l : list string) :
  length (elements (list_to_set (C:=gset string) l)) <= length l.
Proof.
  apply submseteq_length, NoDup_submseteq; [apply NoDup_elements|].
  intros x. by rewrite elem_of_elements, elem_of_list_to_set.
Qed.

Lemma search_result_facts self (q : Vec) (k : Z) w r w1 :
  search similarity self q k w = (Ok r, w1) ->
  w1 = w
  /\ Forall (fun text => text <> "") (sd_contexts r)
  /\ NoDup (sd_sources r)
  /\ length (sd_sources r) <= length (sd_contexts r)
  /\ (sd_contexts r = [] <-> sd_sources r = []).
Proof.
  intros (-> & c & _ & _ & ->)%search_ok_inv_full. simpl.
  set (hits := surviving (take (Z.to_nat k) (ranked similarity c q true))).
  split; [done|]. split; [|split; [apply NoDup_elements|split]].
  - apply Forall_fmap, Forall_forall. intros p Hp. by apply surviving_text_nonempty in Hp.
  - etrans; [apply elements_list_to_set_length|]. by rewrite !length_fmap.
  - split.
    + intros ->%fmap_nil_inv. simpl. apply elements_empty.
    + intros Hnone. destruct hits as [|p hits']; [done|]. exfalso.
      assert (Hin : payload_get p "source"
                    ∈ elements (list_to_set (C:=gset string)
                         ((fun p => payload_get p "source") <$> p :: hits'))).
      { apply elem_of_elements, elem_of_list_to_set. simpl. by left. }
      rewrite Hnone in Hin. by apply elem_of_nil in Hin.
Qed.

(** X5: what every result of [search] satisfies: the database is as it
    was; no context is the empty string; no source is listed twice; there
    are at most as many sources as contexts; and the source list is empty
    exactly when the context list is. *)
Theorem search_result_invariants self (q : Vec) (k : Z) w r w1 :
  search similarity self q k w = (Ok r, w1) ->
  w1 = w
  /\ Forall (fun text => text <> "") (sd_contexts r)
  /\ NoDup (sd_sources r)
  /\ length (sd_sources r) <= length (sd_contexts r)
  /\ (sd_contexts r = [] <-> sd_sources r = []).
Proof. apply search_result_facts. Qed.

Lemma put_points_size (points : list (PointStruct Vec)) pts :
  size (foldl put_point pts points) <= size pts + length points.
Proof.
  revert pts. induction points as [|p points IH]; intros pts; simpl; [lia|].
  etrans; [apply IH|]. unfold put_point. rewrite map_size_insert.
  destruct (pts !! ps_id p); simpl; unfold id; lia.
Qed.

(** Every stored point is ranked, with its payload. *)
Lemma ranked_complete c (q : Vec) id sp :
  cl_points c !! id = Some sp ->
  {| sp_id := id;
     sp_score := similarity (vp_distance c) q (st_vector sp);
     sp_payload := st_payload sp |} ∈ ranked similarity c q true.
Proof.
  intros Hsp. unfold ranked. rewrite merge_sort_Permutation.
  apply list_elem_of_fmap. exists (id, sp). split; [done|].
  by apply elem_of_map_to_list.
Qed.

(** X6: writing then reading: when [upsert] of a batch with distinct
    identifiers has returned and a later [search] whose limit covers the
    whole collection returns, the contexts hold the text of every written
    payload that has a non-empty one, and the sources that payload's
    source. *)
Theorem upsert_then_search_returns_text self ids (vectors : list Vec) payloads
    w c w1 (q : Vec) (k : Z) r w2 i p text :
  length vectors = length ids ->
  length payloads = length ids ->
  NoDup ids ->
  collections w !! qs_collection self = Some c ->
  upsert self ids vectors payloads w = (Ok tt, w1) ->
  payloads !! i = Some p ->
  p !! "text" = Some text ->
  text <> "" ->
  size (cl_points c) + length ids <= Z.to_nat k ->
  search similarity self q k w1 = (Ok r, w2) ->
  text ∈ sd_contexts r
  /\ default "" (p !! "source") ∈ sd_sources r.
Proof.
  intros Hv Hp Hnodup Hc Hup Hi Htext Hne Hk Hsearch.
  destruct (upsert_cases self ids vectors payloads w)
    as [[e He]|(c' & points & Hc' & Hpoints & Hrun)]; [congruence|].
  rewrite Hc in Hc'. injection Hc' as <-.
  rewrite Hrun in Hup. injection Hup as <-.
  pose proof (built_points_ids _ _ _ _ Hpoints) as Hids.
  destruct (comprehension_ok_inv _ _ _ _ Hpoints) as [Hlen Hat].
  destruct (lookup_lt_is_Some_2 points i) as [pt Hpt].
  { rewrite Hlen, <- Hp. by apply lookup_lt_Some in Hi. }
  destruct (point_at_ok_inv ids vectors payloads i pt) as (Hid & _ & Hpl);
    [by apply (Hat i)|].
  rewrite Hi in Hpl. injection Hpl as Hpl.
  set (c1 := put_points c points) in *.
  assert (Hstored : cl_points c1 !! ps_id pt = Some (as_stored pt)).
  { apply (put_points_lookup_last _ _ i); [done|].
    intros j q' Hij Hj Heq.
    assert (Hidj : ids !! j = Some (ps_id q')).
    { by rewrite <- Hids, list_lookup_fmap, Hj. }
    rewrite Heq in Hidj.
    pose proof (NoDup_lookup _ _ _ _ Hnodup Hid Hidj). lia. }
  set (w1 := set_collections w (<[qs_collection self := c1]> (collections w))) in *.
  assert (Hc1 : collections w1 !! qs_collection self = Some c1)
    by apply lookup_insert_eq.
  assert (Hk1 : (0 < k)%Z).
  { apply lookup_lt_Some in Hi. lia. }
  rewrite (search_run similarity self q k w1 c1 Hk1 Hc1) in Hsearch.
  injection Hsearch as <- _. simpl.
  assert (Hall : take (Z.to_nat k) (ranked similarity c1 q true)
                 = ranked similarity c1 q true).
  { apply take_ge. rewrite ranked_length. etrans; [apply put_points_size|].
    rewrite Hlen. lia. }
  rewrite Hall.
  pose proof (ranked_complete c1 q _ _ Hstored) as Hin. simpl in Hin.
  set (hit := {| sp_id := ps_id pt;
                 sp_score := similarity (vp_distance c1) q (ps_vector pt);
                 sp_payload := Some (ps_payload pt) |}) in Hin.
  assert (Htext' : payload_get hit "text" = text).
  { unfold payload_get, hit. simpl. by rewrite <- Hpl, Htext. }
  assert (Hsurv : hit ∈ surviving (ranked similarity c1 q true)).
  { unfold surviving. apply list_elem_of_filter. split; [|done].
    rewrite Htext'. by destruct text. }
  split.
  - apply list_elem_of_fmap. exists hit. by split.
  - apply elem_of_elements, elem_of_list_to_set, list_elem_of_fmap.
    exists hit. split; [|done]. unfold payload_get, hit. simpl. by rewrite <- Hpl.
Qed.

End SearchMore.

(** ** data_loader.py and main.py: more on the ingest workflow *)

Section IngestMore.

Context {Vec : Type}.
Variable uuid5 : string -> string -> string.
Implicit Types (w : World Vec) (c : Collection Vec) (svc : Services Vec).
Implicit Types (cs : RAGChunkAndSrc) (data : gmap string PyVal).

Lemma foldl_extend {A} (f : string -> list A) (texts : list string) (acc : list A) :
  foldl (fun chunked text => (chunked ++ f text)%list) acc texts
  = (acc ++ concat (f <$> texts))%list.
Proof.
  revert acc. induction texts as [|text texts IH]; intros acc; simpl.
  - by rewrite app_nil_r.
  - by rewrite IH, app_assoc.
Qed.

Lemma elem_of_concat {A} (x : A) (ls : list (list A)) :
  x ∈ concat ls <-> exists l, x ∈ l /\ l ∈ ls.
Proof.
  induction ls as [|l ls IH]; simpl.
  - split; [by intros ?%elem_of_nil|by intros (l & _ & ?%elem_of_nil)].
  - rewrite elem_of_app, IH. split.
    + intros [Hx|(l' & Hx & Hl')]; [exists l|exists l']; split; try done;
        [by left|by right].
    + intros (l' & Hx & [->|Hl']%elem_of_cons); [by left|right; eauto].
Qed.

Lemma load_and_chunk_pdf_run svc (path : string) w :
  load_and_chunk_pdf svc path w
  = (match pdf_load_data svc path with
     | Ok documents => Ok (concat (splitter svc <$> omap document_text documents))
     | Raised e => Raised e
     end, w).
Proof.
  unfold load_and_chunk_pdf, bind, lift, ret.
  destruct (pdf_load_data svc path) as [documents|e]; [|done].
  by rewrite foldl_extend.
Qed.

(** The pages that get past [if getattr(d, 'text', None)], in page order. *)
Lemma document_texts_filter (documents : list (option string)) :
  Some <$> omap document_text documents
  = filter (fun d => d <> None /\ d <> Some "") documents.
Proof.
  clear uuid5.
  induction documents as [|[[|ch t]|] documents IH]; [done| | |].
  - rewrite filter_cons. rewrite decide_False by naive_solver. done.
  - rewrite filter_cons. rewrite decide_True by naive_solver.
    cbn. by rewrite <- IH.
  - rewrite filter_cons. rewrite decide_False by naive_solver. done.
Qed.

(** X7: [load_and_chunk_pdf] returns exactly the splitter's chunks of the
    pages that have a non-empty text, concatenated in page order; pages
    with no text or an empty one are skipped without notice, and a document
    without any text gives zero chunks and no error. *)
Theorem load_and_chunk_pdf_skips_textless_pages svc (path : string) w documents :
  pdf_load_data svc path = Ok documents ->
  exists texts chunks,
    load_and_chunk_pdf svc path w = (Ok chunks, w)
    /\ Some <$> texts = filter (fun d => d <> None /\ d <> Some "") documents
    /\ chunks = concat (split_text svc 1000 200 <$> texts)
    /\ (Forall (fun d => d = None \/ d = Some "") documents -> chunks = []).
Proof.
  clear uuid5.
  intros Hload. exists (omap document_text documents). eexists.
  split; [by rewrite load_and_chunk_pdf_run, Hload|].
  split; [apply document_texts_filter|]. split; [done|].
  intros Hnone. clear Hload.
  replace (omap document_text documents) with (@nil string); [done|].
  symmetry. apply (fmap_nil_inv Some). rewrite document_texts_filter.
  induction Hnone as [|d documents Hd _ IH]; [done|].
  rewrite filter_cons, decide_False; [exact IH|].
  destruct Hd as [->| ->]; naive_solver.
Qed.

(** X8: the ingest workflow stops before it embeds or stores anything when
    the event has no ["pdf_file_path"] ([KeyError], even if it has a
    [source_id]) and when the reader cannot load the file (the reader's
    error): the world is left as it was. *)
Theorem ingest_fails_before_any_write svc data w :
  (data !! "pdf_file_path" = None ->
   rag_ingest_pdf uuid5 svc data w = (Raised (KeyError "pdf_file_path"), w))
  /\ (forall v e,
        data !! "pdf_file_path" = Some v ->
        pdf_load_data svc (py_str v) = Raised e ->
        rag_ingest_pdf uuid5 svc data w = (Raised e, w)).
Proof.
  split.
  - intros Hnone. unfold rag_ingest_pdf, step_run, _load, data_getitem, bind.
    by rewrite Hnone.
  - intros v e Hv He.
    unfold rag_ingest_pdf, step_run, _load, data_getitem, bind at 1 2 3.
    rewrite Hv. simpl. by rewrite load_and_chunk_pdf_run, He.
Qed.

(** What a run of the ingest workflow that returns has done. *)
Lemma rag_ingest_pdf_ok_inv svc data w r w1 :
  rag_ingest_pdf uuid5 svc data w = (Ok r, w1) ->
  exists v chunks,
    data !! "pdf_file_path" = Some v
    /\ _upsert uuid5 svc
         {| chunk := chunks;
            source_id := py_str (default (PyStr (py_str v)) (data !! "source_id")) |} w
       = (Ok r, w1).
Proof.
  unfold rag_ingest_pdf, step_run.
  intros (cs & wa & Hload & Hrun)%bind_ok_inv.
  apply bind_ok_inv in Hrun as (r' & wb & Hup & [= <- <-]).
  unfold _load, data_getitem in Hload.
  destruct (data !! "pdf_file_path") as [v|] eqn:Hpath; [|done].
  apply bind_ok_inv in Hload as (v' & w' & [= <- <-] & Hload).
  apply bind_ok_inv in Hload as (chunks & w'' & Hchunks & [= <- <-]).
  rewrite load_and_chunk_pdf_run in Hchunks. injection Hchunks as _ <-.
  exists v, chunks. done.
Qed.

(** X9: a [source_id] present in the event is used through [str],
    whatever its JSON type: every payload and point identifier of the run
    carries [str(source_id)], so a null [source_id] files the document
    under the source ["None"], not under its path. *)
Theorem given_source_id_is_stringified svc data v' w r w1 :
  data !! "source_id" = Some v' ->
  rag_ingest_pdf uuid5 svc data w = (Ok r, w1) ->
  forall i, i < ingested r ->
    exists sp payload,
      indexed w1 !! uuid5 NAMESPACE_URL (py_str v' +:+ ":" +:+ pretty i) = Some sp
      /\ st_payload sp = Some payload
      /\ payload !! "source" = Some (py_str v').
Proof.
  intros Hsrc (v & chunks & _ & Hup)%rag_ingest_pdf_ok_inv i Hi.
  rewrite Hsrc in Hup. simpl in Hup.
  apply _upsert_ok_inv in Hup as (points & w0 & c0 & Hc0 & Hids & Hpay & -> & Hn).
  simpl in *. rewrite indexed_after_put.
  destruct (put_points_lookup_written points (cl_points c0)
              (uuid5 NAMESPACE_URL (py_str v' +:+ ":" +:+ pretty i)))
    as (p & Hp & _ & ->).
  { rewrite Hids. apply list_elem_of_fmap. exists i. split; [done|].
    apply elem_of_seq. lia. }
  exists (as_stored p), (ps_payload p). auto.
Qed.

(** X10: [_upsert] never deletes: over an existing collection, however the
    run ends, every point whose identifier is not one of the run's own
    [uuid5("source_id:i")] is exactly as before, and every identifier
    indexed before is indexed after.  Points left by an earlier, longer
    ingest of the same source therefore stay. *)
Theorem upsert_step_keeps_other_points svc cs w c r w1 :
  collections w !! default_collection = Some c ->
  _upsert uuid5 svc cs w = (r, w1) ->
  (forall id,
     (forall i, i < length (chunk cs) ->
        id <> uuid5 NAMESPACE_URL (source_id cs +:+ ":" +:+ pretty i)) ->
     indexed w1 !! id = indexed w !! id)
  /\ dom (indexed w) ⊆ dom (indexed w1).
Proof.
  intros Hc Hrun.
  destruct (_upsert_existing uuid5 svc cs w c r w1 Hc Hrun) as [->|(points & Hids & ->)];
    [done|].
  rewrite indexed_after_put. unfold indexed. rewrite Hc. split.
  - intros id Hother. apply put_points_lookup_other. intros p Hp <-.
    apply (list_elem_of_fmap_2 ps_id) in Hp. rewrite Hids in Hp.
    apply list_elem_of_fmap in Hp as (i & Hid & Hi%elem_of_seq).
    apply (Hother i); [lia|done].
  - rewrite put_points_dom. set_solver.
Qed.

(** X11: when the embedding service answers with fewer vectors than there
    are chunks, [_upsert] over an existing collection raises [IndexError]
    and writes none of the chunks. *)
Theorem upsert_step_short_embeddings_write_nothing svc cs vectors w c :
  embeddings_create svc (chunk cs) EMBEDDING_MODEL = Ok vectors ->
  length vectors < length (chunk cs) ->
  collections w !! default_collection = Some c ->
  _upsert uuid5 svc cs w = (Raised IndexError, w).
Proof.
  intros Hembed Hshort Hc. unfold _upsert, bind at 1, embed_texts, lift at 1.
  rewrite Hembed. unfold bind at 1, lift at 1. rewrite payloads_built.
  unfold bind at 1. rewrite (init_existing _ _ _ _ c Hc).
  unfold bind. rewrite upsert_short_run; [done|].
  left. by rewrite length_fmap, length_seq.
Qed.

End IngestMore.

(** ** [str.strip] *)

Section StripFacts.

Lemma rstrip_idem s : rstrip (rstrip s) = rstrip s.
Proof.
  induction s as [|c s IH]; [done|]. simpl.
  destruct (rstrip s) as [|c' r] eqn:Hr.
  - destruct (is_space c) eqn:Hc; [done|]. simpl. by rewrite Hc.
  - change (rstrip (String c (String c' r))) with
      (match rstrip (String c' r) with
       | EmptyString => if is_space c then EmptyString else String c EmptyString
       | r0 => String c r0
       end).
    by rewrite IH.
Qed.

Lemma lstrip_head s :
  match lstrip s with
  | String c _ => is_space c = false
  | EmptyString => True
  end.
Proof.
  induction s as [|c s IH]; [done|]. simpl.
  destruct (is_space c) eqn:Hc; [done|]. simpl. done.
Qed.

Lemma rstrip_keeps_head c s :
  is_space c = false -> exists t, rstrip (String c s) = String c t.
Proof. intros Hc. simpl. destruct (rstrip s); rewrite ?Hc; eauto. Qed.

(** Stripping what is already stripped changes nothing. *)
Lemma strip_idem s : strip (strip s) = strip s.
Proof.
  unfold strip. pose proof (lstrip_head s) as Hhead.
  destruct (lstrip s) as [|c t]; [done|].
  destruct (rstrip_keeps_head c t Hhead) as [u Hu].
  rewrite Hu at 1. simpl lstrip. rewrite Hhead. rewrite <- Hu. apply rstrip_idem.
Qed.

End StripFacts.

(** ** main.py and evaluate_rag.py: more on answering a question *)

Section QueryMore.

Context {Vec : Type}.
Variable similarity : Distance -> Vec -> Vec -> Z.
Variable int_of_str : string -> option Z.
Implicit Types (w : World Vec) (svc : Services Vec) (data : gmap string PyVal).

(** X12: the query workflow rejects an event without a ["question"]
    ([KeyError]) and an event whose [top_k] [int()] does not accept (its
    [TypeError] or [ValueError]) before it embeds, searches or creates
    anything: the world is left as it was. *)
Theorem query_rejects_malformed_event svc data w :
  (data !! "question" = None ->
   rag_query_pdf_ai similarity int_of_str svc data w = (Raised (KeyError "question"), w))
  /\ (forall question e,
        data !! "question" = Some (PyStr question) ->
        py_int int_of_str (default (PyInt 5) (data !! "top_k")) = Raised e ->
        rag_query_pdf_ai similarity int_of_str svc data w = (Raised e, w)).
Proof.
  split.
  - intros Hnone. unfold rag_query_pdf_ai, data_getitem, bind. by rewrite Hnone.
  - intros question e Hq Hk. unfold rag_query_pdf_ai, data_getitem, bind at 1 2 3.
    rewrite Hq. simpl. unfold lift. by rewrite Hk.
Qed.

(** X13: the API key is looked at only after the retrieval step: without
    [OPENAI_API_KEY], or with an empty one, a query whose retrieval
    succeeded ends in [ValueError], whatever the model would have said, and
    what the retrieval did to the world stays done. *)
Theorem query_without_api_key_raises_after_retrieval svc data (question : string)
    (k : Z) w sr w1 :
  data !! "question" = Some (PyStr question) ->
  py_int int_of_str (default (PyInt 5) (data !! "top_k")) = Ok k ->
  _search similarity svc question k w = (Ok sr, w1) ->
  default "" (environ w !! "OPENAI_API_KEY") = "" ->
  rag_query_pdf_ai similarity int_of_str svc data w
  = (Raised (ValueError "OPENAI_API_KEY environment variable is not set"), w1).
Proof.
  intros Hq Hk Hsearch Hkey.
  destruct (_search_ok_inv similarity _ _ _ _ _ _ Hsearch) as [Henv _].
  unfold rag_query_pdf_ai, step_run, data_getitem. rewrite Hq.
  unfold bind at 1. simpl. unfold bind at 1. simpl. rewrite Hk.
  unfold bind at 1. simpl. unfold bind at 1. rewrite Hsearch.
  unfold bind at 1, getenv. rewrite Henv, Hkey. simpl. done.
Qed.

(** What a run of the query workflow that returns has done. *)
Lemma rag_query_pdf_ai_ok_inv svc data w out w1 :
  rag_query_pdf_ai similarity int_of_str svc data w = (Ok out, w1) ->
  exists (question : string) (k : Z) sr text,
    py_int int_of_str (default (PyInt 5) (data !! "top_k")) = Ok k
    /\ _search similarity svc question k w = (Ok sr, w1)
    /\ out = {| answer := strip text;
                out_sources := sources sr;
                num_contexts := length (contexts sr) |}.
Proof.
  unfold rag_query_pdf_ai, step_run, step_ai_infer.
  intros (v & wa & Hv & Hrun)%bind_ok_inv.
  assert (wa = w) as ->.
  { unfold data_getitem in Hv. destruct (data !! "question"); by injection Hv. }
  apply bind_ok_inv in Hrun as (question & wb & Hq & Hrun).
  assert (wb = w) as ->.
  { unfold question_of in Hq. destruct v; by injection Hq. }
  apply bind_ok_inv in Hrun as (k & wc & [Hk ->]%lift_ok_inv & Hrun).
  apply bind_ok_inv in Hrun as (sr & wd & Hsearch & Hrun).
  apply bind_ok_inv in Hrun as (key & we & [= _ <-] & Hrun).
  apply bind_ok_inv in Hrun as ([] & wf & Hcheck & Hrun).
  assert (wf = wd) as ->.
  { destruct (truthy (default "" key)); by injection Hcheck. }
  apply bind_ok_inv in Hrun as (res & wg & [_ ->]%lift_ok_inv & Hrun).
  apply bind_ok_inv in Hrun as (text & wh & [_ ->]%lift_ok_inv & [= <- <-]).
  exists question, k, sr, text. done.
Qed.

(** The search behind a retrieval step that returns. *)
Lemma _search_ok_inv_full svc (question : string) (k : Z) w sr w1 :
  _search similarity svc question k w = (Ok sr, w1) ->
  exists storage (qv : Vec) w0 r,
    search similarity storage qv k w0 = (Ok r, w1)
    /\ contexts sr = sd_contexts r
    /\ sources sr = sd_sources r.
Proof.
  unfold _search.
  intros (vectors & wa & _ & Hrun)%bind_ok_inv.
  apply bind_ok_inv in Hrun as (qv & wb & _ & Hrun).
  apply bind_ok_inv in Hrun as (storage & wc & _ & Hrun).
  apply bind_ok_inv in Hrun as (r & wd & Hsearch & [= <- <-]).
  exists storage, qv, wc, r. done.
Qed.

(** X14: what every output of the query workflow satisfies: [top_k] was
    read as an integer [k]; [num_contexts] is at most [k]; there are at
    most [num_contexts] sources and none is listed twice; and the answer
    has no whitespace left to strip at either end. *)
Theorem query_output_invariants svc data w out w1 :
  rag_query_pdf_ai similarity int_of_str svc data w = (Ok out, w1) ->
  exists k : Z,
    py_int int_of_str (default (PyInt 5) (data !! "top_k")) = Ok k
    /\ (Z.of_nat (num_contexts out) <= k)%Z
    /\ length (out_sources out) <= num_contexts out
    /\ NoDup (out_sources out)
    /\ strip (answer out) = answer out.
Proof.
  intros (question & k & sr & text & Hk & Hsearch & ->)%rag_query_pdf_ai_ok_inv.
  apply _search_ok_inv_full in Hsearch as (storage & qv & w0 & r & Hsearch & Hc & Hs).
  exists k. split; [done|]. simpl. rewrite Hc, Hs.
  destruct (search_result_facts similarity _ _ _ _ _ _ Hsearch)
    as (_ & _ & Hnodup & Hle & _).
  apply search_ok_inv_full in Hsearch as (_ & c & _ & Hk1 & ->). simpl in *.
  split; [|split; [done|split; [done|apply strip_idem]]].
  rewrite length_fmap.
  assert (length (surviving (take (Z.to_nat k) (ranked similarity c qv true)))
          <= Z.to_nat k); [|lia].
  etrans; [apply length_filter|]. rewrite length_take. lia.
Qed.


(** X16: a query is not read-only on a database that lacks the
    collection: with no fault on the way, the retrieval step creates the
    collection (3072 dimensions, cosine) and returns no context and no
    source instead of failing. *)
Theorem search_step_creates_missing_collection svc (question : string) (k : Z)
    (v : Vec) vs w :
  collections w !! default_collection = None ->
  create_faults w = [] ->
  embeddings_create svc [question] EMBEDDING_MODEL = Ok (v :: vs) ->
  (0 < k)%Z ->
  _search similarity svc question k w
  = (Ok {| contexts := []; sources := [] |},
     set_collections w
       (<[default_collection := empty_collection default_dim COSINE]> (collections w))).
Proof.
  intros Hnone Hfaults Hembed Hk.
  unfold _search, bind at 1, embed_texts, lift at 1. rewrite Hembed.
  unfold bind at 1. simpl. unfold bind at 1.
  rewrite (init_absent _ _ _ _ Hnone). unfold create_collection. rewrite Hfaults.
  unfold deliver_create. rewrite Hnone. unfold bind.
  set (w1 := set_collections w _).
  rewrite (search_run similarity _ v k w1 (empty_collection default_dim COSINE) Hk);
    [|apply lookup_insert_eq].
  rewrite ranked_empty by done. rewrite take_nil. simpl.
  by rewrite elements_empty.
Qed.

End QueryMore.

(** ** evaluate_rag.py: more on the evaluation run *)

Section EvalMore.

Context {Vec : Type}.
Variable similarity : Distance -> Vec -> Vec -> Z.
Implicit Types (w : World Vec) (svc : Services Vec).

Lemma ok_results_length {A} (outs : list (Res A)) :
  length (ok_results outs) <= length outs.
Proof.
  induction outs as [|[a|e] outs IH]; unfold ok_results in *; cbn in *; lia.
Qed.

Lemma dataset_is_zip (results : list EvalResult) :
  length results <= length ground_truths ->
  Dataset_from_dict (build_data results) = Ok (zip_with row_of results ground_truths).
Proof.
  intros Hlen. destruct (dataset_rows results Hlen) as (rows & -> & Hn & Hat).
  f_equal. apply list_eq. intros k. rewrite lookup_zip_with.
  destruct (results !! k) as [r|] eqn:Hk; simpl.
  - destruct (Hat k r Hk) as (g & -> & ->). done.
  - apply lookup_ge_None. apply lookup_ge_None in Hk. lia.
Qed.

Lemma evaluation_dataset_run svc w :
  (evaluation_dataset similarity svc w).1
  = Ok (if bool_decide (ok_results (query_outcomes similarity svc test_questions w) = [])
        then Exited 1
        else Scored (zip_with row_of
                       (ok_results (query_outcomes similarity svc test_questions w))
                       ground_truths)).
Proof.
  pose proof (query_loop_run similarity svc test_questions [] w) as Hloop.
  rewrite app_nil_l in Hloop.
  pose proof (ok_results_length (query_outcomes similarity svc test_questions w)) as Hlen.
  rewrite query_outcomes_length in Hlen.
  set (results := ok_results (query_outcomes similarity svc test_questions w)) in *.
  unfold evaluation_dataset, bind at 1.
  destruct (query_loop similarity svc test_questions [] w) as [out w1].
  simpl in Hloop. subst out.
  destruct (bool_decide (results = [])); [done|].
  unfold bind, lift. by rewrite dataset_is_zip.
Qed.

(** X17: failed queries never make the evaluation script raise before
    scoring: if every query fails it exits with code 1; otherwise the
    dataset has one row for each query that succeeded, in question order,
    and row [k] puts the [k]-th successful result beside
    [ground_truths[k]], whichever question that result answers. *)
Theorem evaluation_pairs_results_by_position svc w :
  let results := ok_results (query_outcomes similarity svc test_questions w) in
  (results = [] -> (evaluation_dataset similarity svc w).1 = Ok (Exited 1))
  /\ (results <> [] ->
      exists rows,
        (evaluation_dataset similarity svc w).1 = Ok (Scored rows)
        /\ length rows = length results
        /\ forall k r, results !! k = Some r ->
             exists g, ground_truths !! k = Some g /\ rows !! k = Some (row_of r g)).
Proof.
  intros results. split.
  - intros Hnone. rewrite evaluation_dataset_run. fold results.
    by rewrite bool_decide_eq_true_2.
  - intros Hsome. eexists. split.
    { rewrite evaluation_dataset_run. fold results. by rewrite bool_decide_eq_false_2. }
    pose proof (ok_results_length (query_outcomes similarity svc test_questions w)) as Hlen.
    rewrite query_outcomes_length in Hlen. fold results in Hlen.
    change (length test_questions) with (length ground_truths) in Hlen.
    split; [rewrite length_zip_with; lia|].
    intros k r Hk. pose proof (lookup_lt_Some _ _ _ Hk) as Hklt.
    destruct (lookup_lt_is_Some_2 ground_truths k) as [g Hg]; [lia|].
    exists g. split; [done|]. by rewrite lookup_zip_with, Hk, Hg.
Qed.

(** Results up to a place where nothing has failed yet stay in place. *)
Lemma ok_results_before_failure {A} (outs : list (Res A)) i a :
  (forall i', i' < i -> exists a', outs !! i' = Some (Ok a')) ->
  outs !! i = Some (Ok a) ->
  ok_results outs !! i = Some a.
Proof.
  revert i. induction outs as [|[a0|e] outs IH]; intros i Hbefore Hi; [done| |].
  - destruct i as [|i]; [by injection Hi as ->|].
    unfold ok_results. simpl. apply IH; [|done].
    intros i' Hi'. apply (Hbefore (S i')). lia.
  - destruct i as [|i]; [done|]. destruct (Hbefore 0) as [a' [=]]. lia.
Qed.

(** X18: as long as no query has failed, the pairing is the intended one:
    if the queries of question [i] and of all questions before it succeed,
    the answer to question [i] sits in row [i] beside its own reference
    answer, whatever happens to later questions. *)
Theorem unfailed_prefix_keeps_own_reference svc w i r :
  (forall i', i' < i ->
     exists r', query_outcomes similarity svc test_questions w !! i' = Some (Ok r')) ->
  query_outcomes similarity svc test_questions w !! i = Some (Ok r) ->
  exists rows q g,
    (evaluation_dataset similarity svc w).1 = Ok (Scored rows)
    /\ test_questions !! i = Some q
    /\ ground_truths !! i = Some g
    /\ rows !! i = Some {| row_question := q;
                           row_answer := r_answer r;
                           row_contexts := r_contexts r;
                           row_ground_truth := g |}.
Proof.
  intros Hbefore Hi.
  pose proof (ok_results_before_failure _ _ _ Hbefore Hi) as Hrow.
  pose proof (lookup_lt_Some _ _ _ Hi) as Hilt.
  rewrite query_outcomes_length in Hilt.
  destruct (lookup_lt_is_Some_2 ground_truths i) as [g Hg]; [done|].
  eexists _, (r_question r), g. split.
  { rewrite evaluation_dataset_run. rewrite bool_decide_eq_false_2; [done|].
    intros Hnil. by rewrite Hnil in Hrow. }
  split; [by apply query_outcomes_question in Hi|]. split; [done|].
  by rewrite lookup_zip_with, Hrow, Hg.
Qed.

End EvalMore.

(** ** pages/query.py and pages/upload.py: waiting for a run *)

Section WaitFacts.

Implicit Types (environ : gmap string string) (ticks pre later : list Tick).

(** Undecided turns are passed over; only the last status may change. *)
Lemma poll_skips_undecided what environ event_id timeout_s pre rest last :
  Forall (fun tick => undecided environ event_id timeout_s tick) pre ->
  exists last',
    poll what environ event_id timeout_s last (pre ++ rest)
    = poll what environ event_id timeout_s last' rest.
Proof.
  revert last. induction pre as [|tick pre IH]; intros last Hpre; [by exists last|].
  apply Forall_cons in Hpre as [Htick Hpre]. simpl.
  unfold undecided in Htick. apply andb_prop_elim in Htick as [Hlate Hstatus].
  apply negb_prop_elim, Is_true_false in Hlate. rewrite Hlate.
  destruct (fetch_runs environ (http_get tick) event_id) as [|run others].
  - by apply IH.
  - apply andb_prop_elim in Hstatus as [Hc Hf].
    apply negb_prop_elim, Is_true_false in Hc, Hf. simpl in Hc, Hf.
    rewrite Hc, Hf. by apply IH.
Qed.

(** X19: when, after any number of undecided turns, the first run
    reported has a status among Completed, Succeeded, Success and Finished,
    [wait_for_run_output] returns that run's output, or the empty
    dictionary when the run has none, even if the deadline has passed by
    then; runs listed after the first are never looked at. *)
Theorem wait_returns_output_of_completed_run what environ event_id timeout_s
    pre tick later run others :
  Forall (fun t => undecided environ event_id timeout_s t) pre ->
  fetch_runs environ (http_get tick) event_id = run :: others ->
  default "Running" (run_status run) ∈ completed_statuses ->
  wait_for_run_output what environ event_id timeout_s (pre ++ tick :: later)
  = Some (Output (default ∅ (run_output run))).
Proof.
  intros Hpre Hruns Hdone. unfold wait_for_run_output.
  destruct (poll_skips_undecided what environ event_id timeout_s pre (tick :: later)
              "Pending" Hpre) as [last' ->].
  simpl. rewrite Hruns. by rewrite bool_decide_eq_true_2.
Qed.

(** X20: when, after any number of undecided turns, the first run
    reported has the status Failed or Cancelled, [wait_for_run_output]
    raises [RuntimeError] naming that status, even if the deadline has
    passed by then. *)
Theorem wait_raises_on_failed_run what environ event_id timeout_s
    pre tick later run others :
  Forall (fun t => undecided environ event_id timeout_s t) pre ->
  fetch_runs environ (http_get tick) event_id = run :: others ->
  default "Running" (run_status run) ∈ failed_statuses ->
  wait_for_run_output what environ event_id timeout_s (pre ++ tick :: later)
  = Some (RuntimeError ("Function run " +:+ default "Running" (run_status run))).
Proof.
  intros Hpre Hruns Hfailed. unfold wait_for_run_output.
  destruct (poll_skips_undecided what environ event_id timeout_s pre (tick :: later)
              "Pending" Hpre) as [last' ->].
  simpl. rewrite Hruns.
  rewrite bool_decide_eq_false_2.
  - by rewrite bool_decide_eq_true_2.
  - intros Hdone. apply list_elem_of_In in Hfailed, Hdone.
    simpl in Hfailed, Hdone.
    destruct Hfailed as [Heq|[Heq|[]]]; rewrite <- Heq in Hdone;
      intuition discriminate.
Qed.

Lemma fetch_runs_unreachable environ get event_id :
  (forall url, exists e, get url = Raised e) -> fetch_runs environ get event_id = [].
Proof.
  intros Hdown. unfold fetch_runs.
  by destruct (Hdown (_inngest_api_base environ +:+ "/events/" +:+ event_id +:+ "/runs"))
    as [e ->].
Qed.

Lemma poll_skips_unreachable what environ event_id timeout_s pre rest last :
  Forall (fun t => (forall url, exists e, http_get t url = Raised e)
                   /\ overdue timeout_s (elapsed t) = false) pre ->
  poll what environ event_id timeout_s last (pre ++ rest)
  = poll what environ event_id timeout_s last rest.
Proof.
  induction pre as [|tick pre IH]; intros Hpre; [done|].
  apply Forall_cons in Hpre as [[Hdown Hlate] Hpre]. simpl.
  rewrite (fetch_runs_unreachable _ _ _ Hdown), Hlate. by apply IH.
Qed.

(** X21: an API that cannot be reached is never reported as such: every
    failed request counts as "no run yet", the loop keeps polling, and at
    the first turn past the deadline [wait_for_run_output] raises
    [TimeoutError] with the last status still ["Pending"]. *)
Theorem wait_times_out_when_api_unreachable what environ event_id timeout_s
    pre tick later :
  Forall (fun t => (forall url, exists e, http_get t url = Raised e)
                   /\ overdue timeout_s (elapsed t) = false) pre ->
  (forall url, exists e, http_get tick url = Raised e) ->
  overdue timeout_s (elapsed tick) = true ->
  wait_for_run_output what environ event_id timeout_s (pre ++ tick :: later)
  = Some (TimeoutError ("Timed out waiting for " +:+ what
                        +:+ " (last status: Pending)")).
Proof.
  intros Hpre Hdown Hlate. unfold wait_for_run_output.
  rewrite poll_skips_unreachable by done. simpl.
  by rewrite (fetch_runs_unreachable _ _ _ Hdown), Hlate.
Qed.

End WaitFacts.

(** ** main.py and vector_db.py: what is ingested can be retrieved *)

Section IngestThenSearch.

Context {Vec : Type}.
Variable similarity : Distance -> Vec -> Vec -> Z.
Variable uuid5 : string -> string -> string.
Implicit Types (w : World Vec) (c : Collection Vec) (svc : Services Vec).

(** A search whose limit covers the collection returns the text of every
    stored point that has a non-empty one. *)
Lemma search_finds_stored_text self (q : Vec) (k : Z) w c id sp payload text :
  collections w !! qs_collection self = Some c ->
  cl_points c !! id = Some sp ->
  st_payload sp = Some payload ->
  payload !! "text" = Some text ->
  text <> "" ->
  (0 < k)%Z ->
  size (cl_points c) <= Z.to_nat k ->
  exists r,
    search similarity self q k w = (Ok r, w)
    /\ text ∈ sd_contexts r
    /\ default "" (payload !! "source") ∈ sd_sources r.
Proof.
  intros Hc Hsp Hpl Htext Hne Hk Hsize.
  eexists. split; [by apply (search_run similarity self q k w c)|]. simpl.
  rewrite take_ge by (by rewrite ranked_length).
  pose proof (ranked_complete similarity c q _ _ Hsp) as Hin.
  set (hit := {| sp_id := id;
                 sp_score := similarity (vp_distance c) q (st_vector sp);
                 sp_payload := st_payload sp |}) in Hin.
  assert (Htext' : payload_get hit "text" = text).
  { unfold payload_get, hit. simpl. rewrite Hpl. simpl. by rewrite Htext. }
  assert (Hsurv : hit ∈ surviving (ranked similarity c q true)).
  { unfold surviving. apply list_elem_of_filter. split; [|done].
    rewrite Htext'. by destruct text. }
  split.
  - apply list_elem_of_fmap. exists hit. by split.
  - apply elem_of_elements, elem_of_list_to_set, list_elem_of_fmap.
    exists hit. split; [|done]. unfold payload_get, hit. simpl. by rewrite Hpl.
Qed.

(** The points a run of [_upsert] that returns has written, one by one. *)
Lemma _upsert_ok_points svc cs w r w1 :
  _upsert uuid5 svc cs w = (Ok r, w1) ->
  exists points c0,
    collections w1 !! default_collection = Some (put_points c0 points)
    /\ length points = length (chunk cs)
    /\ forall i p, points !! i = Some p ->
         ps_id p = point_id uuid5 (source_id cs) i
         /\ exists text, chunk cs !! i = Some text
                         /\ ps_payload p = chunk_payload (source_id cs) text.
Proof.
  unfold _upsert. intros Hrun.
  apply bind_ok_inv in Hrun as (vectors & wa & _ & Hrun).
  apply bind_ok_inv in Hrun as (payloads & wb & [Hpay ->]%lift_ok_inv & Hrun).
  apply bind_ok_inv in Hrun as (storage & w0 & Hinit & Hrun).
  apply bind_ok_inv in Hrun as ([] & wc & Hup & [= <- <-]).
  apply init_ok_inv in Hinit as (-> & [c0 Hc0] & _).
  rewrite payloads_built in Hpay. injection Hpay as <-.
  destruct (upsert_cases {| qs_url := default_url; qs_collection := default_collection;
                            qs_dim := default_dim |}
              (point_id uuid5 (source_id cs) <$> seq 0 (length (chunk cs)))
              vectors (chunk_payload (source_id cs) <$> chunk cs) w0)
    as [[e He]|(c & points & Hc & Hpoints & Hok)]; [congruence|].
  simpl in Hc. rewrite Hc0 in Hc. injection Hc as <-.
  rewrite Hok in Hup. injection Hup as <-.
  exists points, c0. split; [simpl; apply lookup_insert_eq|].
  apply comprehension_ok_inv in Hpoints as [Hlen Hat].
  rewrite length_fmap, length_seq in Hlen. split; [done|].
  intros i p Hi. apply Hat in Hi as Hp. change (0 + i) with i in Hp.
  apply point_at_ok_inv in Hp as (Hid & _ & Hpl).
  rewrite list_lookup_fmap in Hid. rewrite list_lookup_fmap in Hpl.
  destruct (chunk cs !! i) as [text|] eqn:Htext; [|done].
  injection Hpl as <-. split; [|eauto].
  apply lookup_lt_Some in Htext.
  rewrite lookup_seq_lt in Hid by done. by injection Hid as <-.
Qed.

(** X22: what a successful [_upsert] ingests can be retrieved: when the
    identifiers of the document's chunks are pairwise distinct, every
    chunk with a non-empty text is among the contexts of any later search
    whose limit covers the collection, and the document's source is among
    the sources. *)
Theorem ingested_chunks_are_retrievable svc cs w r w1 i text (q : Vec) (k : Z) :
  _upsert uuid5 svc cs w = (Ok r, w1) ->
  NoDup ((fun j => uuid5 NAMESPACE_URL (source_id cs +:+ ":" +:+ pretty j))
           <$> seq 0 (length (chunk cs))) ->
  chunk cs !! i = Some text ->
  text <> "" ->
  (0 < k)%Z ->
  size (indexed w1) <= Z.to_nat k ->
  exists found,
    search similarity
      {| qs_url := default_url; qs_collection := default_collection;
         qs_dim := default_dim |} q k w1 = (Ok found, w1)
    /\ text ∈ sd_contexts found
    /\ source_id cs ∈ sd_sources found.
Proof.
  intros Hrun Hnodup Hi Hne Hk Hsize.
  apply _upsert_ok_points in Hrun as (points & c0 & Hc1 & Hlen & Hat).
  destruct (lookup_lt_is_Some_2 points i) as [p Hp].
  { rewrite Hlen. by apply lookup_lt_Some in Hi. }
  destruct (Hat i p Hp) as (Hid & text' & Htext' & Hpl).
  rewrite Hi in Htext'. injection Htext' as <-.
  unfold indexed in Hsize. rewrite Hc1 in Hsize.
  assert (Hstored : cl_points (put_points c0 points) !! ps_id p = Some (as_stored p)).
  { apply (put_points_lookup_last _ _ i); [done|].
    intros j p' Hij Hj Heq. destruct (Hat j p' Hj) as (Hidj & _).
    rewrite Hid, Hidj in Heq. unfold point_id in Heq.
    pose proof (lookup_lt_Some _ _ _ Hp) as Hilt.
    pose proof (lookup_lt_Some _ _ _ Hj) as Hjlt. rewrite Hlen in Hilt, Hjlt.
    assert (i = j); [|lia].
    eapply (NoDup_lookup _ i j); [exact Hnodup| |];
      rewrite list_lookup_fmap, lookup_seq_lt by done; simpl; [done|by rewrite Heq]. }
  destruct (search_finds_stored_text
              {| qs_url := default_url; qs_collection := default_collection;
                 qs_dim := default_dim |} q k w1 _ _ _ (ps_payload p) text
              Hc1 Hstored eq_refl) as (found & Hsearch & Hin & Hsrc);
    [by rewrite Hpl|done|done|done|].
  exists found. split; [done|]. split; [done|].
  by rewrite Hpl in Hsrc.
Qed.

End IngestThenSearch.

(** ** The further properties on the concrete instance *)

Section MoreChecks.

Import Demo DemoMore DemoPages.
Local Open Scope Z_scope.

Lemma upsert_short_sequences_write_nothing_witness :
  upsert adapter ["a"; "b"] [[1; 1]] [{["text" := "x"]}; {["text" := "y"]}] stocked
  = (Raised IndexError, stocked).
Proof.
  apply (upsert_short_sequences_write_nothing adapter ["a"; "b"] [[1; 1]]).
  left. simpl. lia.
Defined.

Lemma init_preserves_collections_witness :
  let after := QdrantStorage_init default_url "scratch" 8
                 (set_create_faults stocked [LostRequest TimedOut]) in
  after.1 = Raised (QdrantError (NotFound "scratch"))
  /\ collections after.2 !! default_collection = Some library.
Proof.
  intros after. split; [vm_compute; reflexivity|].
  apply (proj2 (init_preserves_collections default_url "scratch" 8
                  (set_create_faults stocked [LostRequest TimedOut])
                  after.1 after.2 (surjective_pairing _))).
  vm_compute; reflexivity.
Defined.

Lemma init_again_is_noop_witness :
  let w1 := (QdrantStorage_init default_url default_collection default_dim fresh).2 in
  QdrantStorage_init default_url default_collection 8 w1
  = (Ok {| qs_url := default_url; qs_collection := default_collection;
           qs_dim := 8 |}, w1).
Proof.
  intros w1.
  apply (init_again_is_noop default_url default_collection default_dim adapter fresh).
  vm_compute; reflexivity.
Defined.

Lemma search_result_invariants_witness :
  exists r,
    search similarity adapter [1; 0] 2 stocked = (Ok r, stocked)
    /\ (length (sd_sources r) <= length (sd_contexts r))%nat
    /\ NoDup (sd_sources r).
Proof.
  exists {| sd_contexts := ["five"]; sd_sources := ["doc1"] |}.
  assert (Hrun : search similarity adapter [1; 0] 2 stocked
                 = (Ok {| sd_contexts := ["five"]; sd_sources := ["doc1"] |}, stocked))
    by (vm_compute; reflexivity).
  destruct (search_result_invariants similarity adapter [1; 0] 2 stocked _ _ Hrun)
    as (_ & _ & Hnodup & Hle & _).
  auto.
Defined.

Lemma upsert_then_search_returns_text_witness :
  exists r,
    search similarity adapter [1; 0] 4 reshelved = (Ok r, reshelved)
    /\ "eight" ∈ sd_contexts r
    /\ "docX" ∈ sd_sources r.
Proof.
  exists {| sd_contexts := ["eight"; "seven"; "one"]; sd_sources := ["doc1"; "docX"; ""] |}.
  assert (Hsearch : search similarity adapter [1; 0] 4 reshelved
                    = (Ok {| sd_contexts := ["eight"; "seven"; "one"];
                             sd_sources := ["doc1"; "docX"; ""] |}, reshelved))
    by (vm_compute; reflexivity).
  split; [exact Hsearch|].
  destruct (upsert_then_search_returns_text similarity adapter [id_five; id_new]
              [[7; 7]; [8; 8]]
              [{["text" := "seven"]}; {["source" := "docX"; "text" := "eight"]}]
              shelved shelf reshelved [1; 0] 4
              {| sd_contexts := ["eight"; "seven"; "one"];
                 sd_sources := ["doc1"; "docX"; ""] |} reshelved 1%nat
              {["source" := "docX"; "text" := "eight"]} "eight")
    as [Htext Hsource]; try (vm_compute; reflexivity); try exact Hsearch.
  - apply (bool_decide_unpack _). vm_compute. exact I.
  - discriminate.
  - split; [exact Htext|exact Hsource].
Defined.

Lemma load_and_chunk_pdf_skips_textless_pages_witness :
  load_and_chunk_pdf svc "doc1.pdf" fresh
  = (Ok ["one two three #0"; "one two three #1"; "one two three #2"], fresh).
Proof.
  destruct (load_and_chunk_pdf_skips_textless_pages svc "doc1.pdf" fresh
              [Some "one two three"; None; Some ""])
    as (texts & chunks & Hrun & Htexts & Hchunks & _); [vm_compute; reflexivity|].
  rewrite Hrun. f_equal. f_equal. rewrite Hchunks.
  assert (texts = ["one two three"]) as ->; [|vm_compute; reflexivity].
  apply (inj (fmap Some)). rewrite Htexts. vm_compute. reflexivity.
Defined.

Lemma ingest_fails_before_any_write_witness :
  rag_ingest_pdf uuid5 svc {["source_id" := PyStr "doc1"]} fresh
  = (Raised (KeyError "pdf_file_path"), fresh)
  /\ rag_ingest_pdf uuid5 svc {["pdf_file_path" := PyStr "missing.pdf"]} fresh
     = (Raised (ServiceError "DocumentLoadError"), fresh).
Proof.
  split.
  - apply (proj1 (ingest_fails_before_any_write uuid5 svc
                    {["source_id" := PyStr "doc1"]} fresh)).
    vm_compute; reflexivity.
  - apply (proj2 (ingest_fails_before_any_write uuid5 svc
                    {["pdf_file_path" := PyStr "missing.pdf"]} fresh)
             (PyStr "missing.pdf")); vm_compute; reflexivity.
Defined.

Lemma given_source_id_is_stringified_witness :
  exists sp payload,
    indexed (rag_ingest_pdf uuid5 svc
               {["pdf_file_path" := PyStr "doc1.pdf"; "source_id" := PyNone]} fresh).2
      !! "uuid5/None:0" = Some sp
    /\ st_payload sp = Some payload
    /\ payload !! "source" = Some "None".
Proof.
  destruct (given_source_id_is_stringified uuid5 svc
              {["pdf_file_path" := PyStr "doc1.pdf"; "source_id" := PyNone]} PyNone fresh
              {| ingested := 3 |}
              (rag_ingest_pdf uuid5 svc
                 {["pdf_file_path" := PyStr "doc1.pdf"; "source_id" := PyNone]} fresh).2)
    with (i := 0%nat) as (sp & payload & Hsp & Hpl & Hsrc);
    [vm_compute; reflexivity|vm_compute; reflexivity|simpl; lia|].
  exists sp, payload. repeat split; [exact Hsp|exact Hpl|exact Hsrc].
Defined.

Lemma upsert_step_keeps_other_points_witness :
  let w1 := (_upsert uuid5 svc doc1_short after_doc1).2 in
  indexed w1 !! "uuid5/doc1:2" = indexed after_doc1 !! "uuid5/doc1:2"
  /\ is_Some (indexed w1 !! "uuid5/doc1:2").
Proof.
  intros w1. split; [|vm_compute; eauto].
  destruct (collections after_doc1 !! default_collection) as [c|] eqn:Hc;
    [|vm_compute in Hc; discriminate].
  apply (proj1 (upsert_step_keeps_other_points uuid5 svc doc1_short after_doc1 c
                  (_upsert uuid5 svc doc1_short after_doc1).1 w1 Hc
                  (surjective_pairing _))).
  intros [|i] Hi; [discriminate|simpl in Hi; lia].
Defined.

Lemma upsert_step_short_embeddings_write_nothing_witness :
  _upsert uuid5 stingy doc1 stocked = (Raised IndexError, stocked).
Proof.
  apply (upsert_step_short_embeddings_write_nothing uuid5 stingy doc1 [[1; 1]; [1; 1]]
           stocked library); [vm_compute; reflexivity|simpl; lia|vm_compute; reflexivity].
Defined.

Lemma query_rejects_malformed_event_witness :
  rag_query_pdf_ai similarity int_of_str svc {["top_k" := PyInt 3]} fresh
  = (Raised (KeyError "question"), fresh)
  /\ rag_query_pdf_ai similarity int_of_str svc
       {["question" := PyStr "hi"; "top_k" := PyNone]} fresh
     = (Raised TypeError, fresh).
Proof.
  split.
  - apply (proj1 (query_rejects_malformed_event similarity int_of_str svc
                    {["top_k" := PyInt 3]} fresh)).
    vm_compute; reflexivity.
  - apply (proj2 (query_rejects_malformed_event similarity int_of_str svc
                    {["question" := PyStr "hi"; "top_k" := PyNone]} fresh) "hi");
      vm_compute; reflexivity.
Defined.

Lemma query_without_api_key_raises_after_retrieval_witness :
  rag_query_pdf_ai similarity int_of_str svc {["question" := PyStr "hi"]} keyless
  = (Raised (ValueError "OPENAI_API_KEY environment variable is not set"), keyless).
Proof.
  apply (query_without_api_key_raises_after_retrieval similarity int_of_str svc
           {["question" := PyStr "hi"]} "hi" 5 keyless
           {| contexts := ["five"; "one"]; sources := ["doc1"] |} keyless);
    vm_compute; reflexivity.
Defined.

Lemma query_output_invariants_witness :
  exists out,
    (rag_query_pdf_ai similarity int_of_str svc
       {["question" := PyStr "hi"; "top_k" := PyStr "2"]} stocked).1 = Ok out
    /\ (num_contexts out <= 2)%nat
    /\ strip (answer out) = answer out.
Proof.
  exists {| answer := "forty-two"; out_sources := ["doc1"]; num_contexts := 1 |}.
  split; [vm_compute; reflexivity|].
  destruct (query_output_invariants similarity int_of_str svc
              {["question" := PyStr "hi"; "top_k" := PyStr "2"]} stocked
              {| answer := "forty-two"; out_sources := ["doc1"]; num_contexts := 1 |}
              stocked)
    as (k & Hk & Hle & _ & _ & Hstrip); [vm_compute; reflexivity|].
  vm_compute in Hk. injection Hk as <-. split; [lia|exact Hstrip].
Defined.


Lemma search_step_creates_missing_collection_witness :
  exists w1,
    _search similarity svc "hi" 5 fresh = (Ok {| contexts := []; sources := [] |}, w1)
    /\ collections fresh !! default_collection = None
    /\ collections w1 !! default_collection = Some (empty_collection 3072 COSINE).
Proof.
  eexists. split; [|split].
  - apply (search_step_creates_missing_collection similarity svc "hi" 5 [2; 1] [] fresh);
      try (vm_compute; reflexivity); lia.
  - vm_compute; reflexivity.
  - vm_compute; reflexivity.
Defined.

Lemma evaluation_pairs_results_by_position_witness :
  (evaluation_dataset similarity broken stocked).1 = Ok (Exited 1)
  /\ exists rows,
       (evaluation_dataset similarity svc stocked).1 = Ok (Scored rows)
       /\ length rows = 4%nat.
Proof.
  split.
  - apply (proj1 (evaluation_pairs_results_by_position similarity broken stocked)).
    vm_compute; reflexivity.
  - destruct (proj2 (evaluation_pairs_results_by_position similarity svc stocked))
      as (rows & Hrun & Hlen & _); [vm_compute; discriminate|].
    exists rows. split; [done|]. rewrite Hlen. vm_compute; reflexivity.
Defined.

Lemma unfailed_prefix_keeps_own_reference_witness :
  exists rows,
    (evaluation_dataset similarity svc stocked).1 = Ok (Scored rows)
    /\ rows !! 1%nat
       = Some {| row_question := "What methodology is described?";
                 row_answer := completion;
                 row_contexts := ["five"; "one"];
                 row_ground_truth := "The document describes research methodology" |}.
Proof.
  destruct (unfailed_prefix_keeps_own_reference similarity svc stocked 1 second_result)
    as (rows & q & g & Hrun & Hq & Hg & Hrow).
  - intros [|i'] Hi'; [|lia]. eexists. vm_compute; reflexivity.
  - vm_compute; reflexivity.
  - exists rows. split; [done|]. injection Hq as <-. injection Hg as <-. exact Hrow.
Defined.

Lemma wait_returns_output_of_completed_run_witness :
  wait_for_run_output "answer" ∅ "ev1" (Qc_of_Z 120)
    [at_second 1 down; at_second 2 (reports "Running" None);
     at_second 200 (reports "Completed" (Some answer_output)); at_second 201 down]
  = Some (Output answer_output).
Proof.
  apply (wait_returns_output_of_completed_run "answer" ∅ "ev1" (Qc_of_Z 120)
           [at_second 1 down; at_second 2 (reports "Running" None)]
           (at_second 200 (reports "Completed" (Some answer_output)))
           [at_second 201 down]
           {| run_status := Some "Completed"; run_output := Some answer_output |} []).
  - repeat constructor.
  - vm_compute; reflexivity.
  - left.
Defined.

Lemma wait_raises_on_failed_run_witness :
  wait_for_run_output "run" ∅ "ev1" (Qc_of_Z 60)
    [at_second 1 (reports "Queued" None); at_second 3 (reports "Cancelled" None)]
  = Some (RuntimeError "Function run Cancelled").
Proof.
  apply (wait_raises_on_failed_run "run" ∅ "ev1" (Qc_of_Z 60)
           [at_second 1 (reports "Queued" None)]
           (at_second 3 (reports "Cancelled" None)) []
           {| run_status := Some "Cancelled"; run_output := None |} []).
  - repeat constructor.
  - vm_compute; reflexivity.
  - right. left.
Defined.

Lemma wait_times_out_when_api_unreachable_witness :
  wait_for_run_output "answer" ∅ "ev1" (Qc_of_Z 120)
    [at_second 1 down; at_second 60 down; at_second 121 down]
  = Some (TimeoutError "Timed out waiting for answer (last status: Pending)").
Proof.
  apply (wait_times_out_when_api_unreachable "answer" ∅ "ev1" (Qc_of_Z 120)
           [at_second 1 down; at_second 60 down] (at_second 121 down) []).
  - repeat constructor; intros url; eexists; reflexivity.
  - intros url. eexists. reflexivity.
  - vm_compute; reflexivity.
Defined.

Lemma ingested_chunks_are_retrievable_witness :
  exists found,
    search similarity adapter [1; 0] 5 after_doc1 = (Ok found, after_doc1)
    /\ "beta" ∈ sd_contexts found
    /\ "doc1" ∈ sd_sources found.
Proof.
  apply (ingested_chunks_are_retrievable similarity uuid5 svc doc1 fresh
           {| ingested := 3 |} after_doc1 1%nat "beta" [1; 0] 5).
  - vm_compute; reflexivity.
  - apply (bool_decide_unpack _). vm_compute. exact I.
  - reflexivity.
  - discriminate.
  - lia.
  - vm_compute. lia.
Defined.

End MoreChecks.
